(** * Batch-inference orchestration (utils.py): model and verified properties

    The module [utils.py] defines one class, [BatchInference], with two
    methods besides the constructor:

    - [create_input_jsonl] lists the images of a folder of an S3 bucket,
      fetches each one, base64-encodes it, builds one JSON record per image,
      writes the records to the local file [input.jsonl] (one per line) and
      uploads that file;
    - [start_batch_inference_job] checks whether [input.jsonl] is already in
      the bucket, builds it when it is not, and creates the model invocation
      job.

    The development has three layers: the pure library functions the code
    calls ([os.path.basename], [base64.b64encode], [json.dumps]); a small
    state-and-exception monad in which the two methods are written line by
    line; and the theorems. *)

From Stdlib Require Import ZArith NArith Lia Bool List Ascii String DecimalString.
From Stdlib.Strings Require Import Byte.
From stdpp Require Import base option list strings gmap.

Local Open Scope list_scope.
Set Warnings "-register-all".

(** ** Python values

    A Python [str] is modelled by a Rocq [string]: a finite sequence of
    characters, each [ascii] standing for the code point of the same number
    (0..255).  A Python [bytes] object is a [list byte]. *)

Abbreviation bytes := (list byte).

(** The escape character of the colour codes printed by the methods. *)
Definition ESC : string := String (ascii_of_nat 27) EmptyString.

(** The line terminator, the Python literal written backslash-n. *)
Definition LF : ascii := ascii_of_nat 10.

(** ** os.path.basename (posixpath)

    [posixpath.basename(p)] is [i = p.rfind('/') + 1; return p[i:]]. *)

Module posixpath.

(** [str.rfind]: the index of the last occurrence of [c], or -1. *)
Fixpoint rfind (c : ascii) (s : string) : Z :=
  match s with
  | EmptyString => (-1)%Z
  | String a s' =>
      let r := rfind c s' in
      if (0 <=? r)%Z then (r + 1)%Z
      else if Ascii.eqb a c then 0%Z else (-1)%Z
  end.

(** The slice [s[i:]] for [0 <= i]. *)
Fixpoint slice_from (i : nat) (s : string) : string :=
  match i, s with
  | O, _ => s
  | S i', EmptyString => EmptyString
  | S i', String _ s' => slice_from i' s'
  end.

Definition basename (p : string) : string :=
  let i := (rfind "/" p + 1)%Z in
  slice_from (Z.to_nat i) p.

End posixpath.

(** ** base64 (RFC 4648, standard alphabet, with padding) *)

Module base64.

Definition alphabet : string :=
  "ABCDEFGHIJKLMNOPQRSTUVWXYZabcdefghijklmnopqrstuvwxyz0123456789+/".

(** The character of a 6-bit value. *)
Definition b2a (n : N) : ascii :=
  match String.get (N.to_nat n) alphabet with
  | Some c => c
  | None => "="%char
  end.

(** The four 6-bit values of a group of three octets. *)
Definition sextets (x0 x1 x2 : N) : N * N * N * N :=
  (N.shiftr x0 2,
   N.lor (N.shiftl (N.land x0 3) 4) (N.shiftr x1 4),
   N.lor (N.shiftl (N.land x1 15) 2) (N.shiftr x2 6),
   N.land x2 63)%N.

(** [base64.b64encode(b).decode('utf-8')]: the output of [b64encode] is
    made of ASCII characters only, so decoding it yields the string with
    the same characters. *)
Fixpoint b64encode (bs : bytes) : string :=
  match bs with
  | [] => EmptyString
  | [b0] =>
      let '(s0, s1, _, _) := sextets (Byte.to_N b0) 0 0 in
      String (b2a s0) (String (b2a s1) "==")
  | [b0; b1] =>
      let '(s0, s1, s2, _) := sextets (Byte.to_N b0) (Byte.to_N b1) 0 in
      String (b2a s0) (String (b2a s1) (String (b2a s2) "="))
  | b0 :: b1 :: b2 :: rest =>
      let '(s0, s1, s2, s3) :=
        sextets (Byte.to_N b0) (Byte.to_N b1) (Byte.to_N b2) in
      String (b2a s0) (String (b2a s1) (String (b2a s2) (String (b2a s3)
        (b64encode rest))))
  end.

(** The 6-bit value of an alphabet character. *)
Fixpoint index_from (i : N) (c : ascii) (s : string) : option N :=
  match s with
  | EmptyString => None
  | String a s' => if Ascii.eqb a c then Some i else index_from (N.succ i) c s'
  end.

Definition a2b (c : ascii) : option N := index_from 0 c alphabet.

Definition octet (n : N) : byte :=
  match Byte.of_N n with
  | Some b => b
  | None => Byte.x00
  end.

(** The octets of a group of four 6-bit values. *)
Definition octets (s0 s1 s2 s3 : N) : byte * byte * byte :=
  (octet (N.lor (N.shiftl s0 2) (N.shiftr s1 4)),
   octet (N.lor (N.shiftl (N.land s1 15) 4) (N.shiftr s2 2)),
   octet (N.lor (N.shiftl (N.land s2 3) 6) s3)).

(** Strict decoding: groups of four characters, padding only in the last
    group.  On the output of [b64encode] it agrees with [base64.b64decode]. *)
Fixpoint b64decode (s : string) : option bytes :=
  match s with
  | EmptyString => Some []
  | String c0 (String c1 (String c2 (String c3 rest))) =>
      match a2b c0, a2b c1 with
      | Some s0, Some s1 =>
          if Ascii.eqb c3 "=" then
            match rest with
            | EmptyString =>
                if Ascii.eqb c2 "=" then
                  let '(b0, _, _) := octets s0 s1 0 0 in Some [b0]
                else
                  match a2b c2 with
                  | Some s2 =>
                      let '(b0, b1, _) := octets s0 s1 s2 0 in Some [b0; b1]
                  | None => None
                  end
            | _ => None
            end
          else
            match a2b c2, a2b c3, b64decode rest with
            | Some s2, Some s3, Some tl =>
                let '(b0, b1, b2) := octets s0 s1 s2 s3 in
                Some (b0 :: b1 :: b2 :: tl)
            | _, _, _ => None
            end
      | _, _ => None
      end
  | _ => None
  end.

End base64.

(** ** json.dumps

    Python dictionaries keep their insertion order, and [json.dumps] writes
    the items in that order: a dictionary is an association list. *)

Module json.

Inductive value : Type :=
| JStr (s : string)
| JInt (n : Z)
| JList (l : list value)
| JDict (d : list (string * value)).

Definition DQUOTE : ascii := ascii_of_nat 34.
Definition BACKSLASH : ascii := ascii_of_nat 92.

Definition hex_digit (n : N) : ascii :=
  match String.get (N.to_nat n) "0123456789abcdef" with
  | Some c => c
  | None => "0"%char
  end.

(** The replacement of one character by [py_encode_basestring_ascii]
    (the default [ensure_ascii=True]): the regular expression
    [ESCAPE_ASCII] selects the backslash, the double quote and everything
    outside the range from space to tilde; [ESCAPE_DCT] gives the short
    escapes, and the other characters become a [\u] escape with four
    lower-case hexadecimal digits. *)
Definition escape_char (c : ascii) : string :=
  let n := N_of_ascii c in
  if Ascii.eqb c DQUOTE then String BACKSLASH (String DQUOTE EmptyString)
  else if Ascii.eqb c BACKSLASH then String BACKSLASH (String BACKSLASH EmptyString)
  else if (n =? 8)%N then String BACKSLASH "b"
  else if (n =? 12)%N then String BACKSLASH "f"
  else if (n =? 10)%N then String BACKSLASH "n"
  else if (n =? 13)%N then String BACKSLASH "r"
  else if (n =? 9)%N then String BACKSLASH "t"
  else if ((n <? 32) || (126 <? n))%N then
    String BACKSLASH
      (String "u" (String "0" (String "0"
        (String (hex_digit (n / 16)) (String (hex_digit (n mod 16)) EmptyString)))))
  else String c EmptyString.

Fixpoint escape (s : string) : string :=
  match s with
  | EmptyString => EmptyString
  | String c s' => escape_char c +:+ escape s'
  end.

Definition encode_basestring_ascii (s : string) : string :=
  String DQUOTE (escape s +:+ String DQUOTE EmptyString).

(** [int.__repr__]: the decimal numeral. *)
Definition int_repr (n : Z) : string := NilZero.string_of_int (Z.to_int n).

(** [sep.join(l)] *)
Fixpoint join (sep : string) (l : list string) : string :=
  match l with
  | [] => EmptyString
  | [x] => x
  | x :: l' => x +:+ sep +:+ join sep l'
  end.

(** [json.dumps(v)] with the default separators [', '] and [': ']. *)
Fixpoint dumps (v : value) : string :=
  match v with
  | JStr s => encode_basestring_ascii s
  | JInt n => int_repr n
  | JList l => "[" +:+ join ", " (List.map dumps l) +:+ "]"
  | JDict d =>
      "{" +:+
      join ", "
        (List.map (fun kv => encode_basestring_ascii (fst kv) +:+ ": " +:+ dumps (snd kv)) d)
      +:+ "}"
  end.

(** [d[k]] on a dictionary value, [None] where Python raises. *)
Fixpoint assoc {A : Type} (k : string) (d : list (string * A)) : option A :=
  match d with
  | [] => None
  | (k', v) :: d' => if String.eqb k' k then Some v else assoc k d'
  end.

Definition getitem (k : string) (v : value) : option value :=
  match v with
  | JDict d => assoc k d
  | _ => None
  end.

End json.
Export json (value (..)).

(** ** Text files

    [input.jsonl] is written in text mode and read back in binary mode.
    [json.dumps] produces ASCII characters only (lemma [dumps_printable]
    below), for which every ASCII-compatible encoding writes one octet per
    character, the octet of the same number.  The text mode is the one of
    a POSIX system, where the line separator is the line feed: [write]
    translates no newline, and the line feed of a line is written as the
    single octet 10. *)

Definition encode_text (s : string) : bytes := list_byte_of_string s.

(** The lines of a text: the maximal runs of characters ended by a line
    feed (the way iterating over a file yields them, terminator removed). *)
Fixpoint lines (s : string) : list string :=
  match s with
  | EmptyString => []
  | String c s' =>
      if Ascii.eqb c LF then EmptyString :: lines s'
      else match lines s' with
           | [] => [String c EmptyString]
           | l :: ls => String c l :: ls
           end
  end.

(** [all(p(c) for c in s)] *)
Fixpoint string_forall (p : ascii -> bool) (s : string) : bool :=
  match s with
  | EmptyString => true
  | String c s' => p c && string_forall p s'
  end.

(** The characters from space to tilde. *)
Definition printable (c : ascii) : bool :=
  ((32 <=? N_of_ascii c) && (N_of_ascii c <=? 126))%N.

Definition not_LF (c : ascii) : bool := negb (Ascii.eqb c LF).

(** ** Exceptions and results

    Of a raised object two things matter to the code: whether it is an
    instance of [Exception] (what [except Exception] catches; objects
    such as [KeyboardInterrupt] derive from [BaseException] only) and the
    text [str(e)] that [print(e)] writes. *)

Record exn : Type := mk_exn {
  is_Exception : bool;
  exn_str : string
}.

Inductive result (A : Type) : Type :=
| Ok (a : A)
| Raise (e : exn).
Arguments Ok {A} a.
Arguments Raise {A} e.

Definition KeyError (k : string) : exn :=
  {| is_Exception := true; exn_str := "'" +:+ k +:+ "'" |}.

Definition FileNotFoundError (name : string) : exn :=
  {| is_Exception := true;
     exn_str := "[Errno 2] No such file or directory: '" +:+ name +:+ "'" |}.

(** ** The collaborators

    The arguments of [create_model_invocation_job]. *)
Record job_request : Type := mk_job_request {
  jobName : string;
  modelId : string;
  inputDataConfig : value;
  outputDataConfig : value;
  roleArn : string
}.

(** The response of the inference service: a dictionary of string fields. *)
Definition response : Type := list (string * string).

(** The two clients are opaque objects of the SDK, and [list_obj_s3] is
    imported from the module [helpers], whose source is not part of
    [utils.py]: all are taken as parameters.  Each call may change the
    state [W] of the outside world (the bucket, the inference service) and
    either returns or raises.  [get_object] stands for the call together
    with [image["Body"].read()], and yields the octets read.  [list_obj_s3]
    returns the list of the keys found. *)
Class Services (W client : Type) : Type := {
  list_obj_s3 : client -> string -> string -> W -> W * result (list string);
  get_object : client -> string -> string -> W -> W * result bytes;
  put_object : client -> string -> string -> bytes -> W -> W * result unit;
  create_model_invocation_job : client -> job_request -> W -> W * result response
}.

(** One entry of the call log: the call, its arguments and its outcome. *)
Inductive event (client : Type) : Type :=
| Ev_list_obj_s3 (s3_client : client) (bucket_name folder_name : string)
    (r : result (list string))
| Ev_get_object (s3_client : client) (Bucket Key : string) (r : result bytes)
| Ev_put_object (s3_client : client) (Bucket Key : string) (Body : bytes)
    (r : result unit)
| Ev_create_model_invocation_job (bedrock_client : client) (req : job_request)
    (r : result response).
Arguments Ev_list_obj_s3 {client}.
Arguments Ev_get_object {client}.
Arguments Ev_put_object {client}.
Arguments Ev_create_model_invocation_job {client}.

Definition is_list_obj_s3 {client} (ev : event client) : bool :=
  match ev with Ev_list_obj_s3 _ _ _ _ => true | _ => false end.
Definition is_get_object {client} (ev : event client) : bool :=
  match ev with Ev_get_object _ _ _ _ => true | _ => false end.
Definition is_put_object {client} (ev : event client) : bool :=
  match ev with Ev_put_object _ _ _ _ _ => true | _ => false end.
Definition is_create_job {client} (ev : event client) : bool :=
  match ev with Ev_create_model_invocation_job _ _ _ => true | _ => false end.

(** The number of calls of one kind in a log (a mock's call count). *)
Definition call_count {client} (p : event client -> bool) (log : list (event client)) : nat :=
  length (List.filter p log).

(** ** The object and the program state *)

(** The attributes set by [__init__]. *)
Record BatchInference (client : Type) : Type := mk_BatchInference {
  bedrock_client : client;
  s3_client : client;
  bucket_name : string;
  folder_name : string;
  output_folder : string;
  model_id : string;
  creation_prompt : string;
  role_arn : string;
  job_name : string
}.
Arguments mk_BatchInference {client}.
Arguments bedrock_client {client}.
Arguments s3_client {client}.
Arguments bucket_name {client}.
Arguments folder_name {client}.
Arguments output_folder {client}.
Arguments model_id {client}.
Arguments creation_prompt {client}.
Arguments role_arn {client}.
Arguments job_name {client}.

(** [BatchInference.__init__] *)
Definition init {client} (bedrock_client s3_client : client)
    (bucket_name folder_name output_folder model_id creation_prompt role_arn job_name : string)
  : BatchInference client :=
  mk_BatchInference bedrock_client s3_client bucket_name folder_name output_folder
    model_id creation_prompt role_arn job_name.

(** What a method call can read and change: the attributes of [self], the
    outside world, the files of the working directory, what was printed,
    and the log of the calls made to the collaborators. *)
Record state (W client : Type) : Type := mk_state {
  self : BatchInference client;
  world : W;
  files : gmap string bytes;
  stdout : list string;
  calls : list (event client)
}.
Arguments mk_state {W client}.
Arguments self {W client}.
Arguments world {W client}.
Arguments files {W client}.
Arguments stdout {W client}.
Arguments calls {W client}.

(** ** The monad of method bodies: state and exceptions *)

Declare Scope py_scope.
Delimit Scope py_scope with py.

Section Program.

Context {W client : Type} `{Services W client}.

Definition M (A : Type) : Type := state W client -> state W client * result A.

Definition ret {A} (a : A) : M A := fun st => (st, Ok a).

(** Sequencing: an exception ends the sequence; the state reached when it
    was raised is kept. *)
Definition bind {A B} (m : M A) (k : A -> M B) : M B :=
  fun st =>
    match m st with
    | (st', Ok a) => k a st'
    | (st', Raise e) => (st', Raise e)
    end.

Definition raise {A} (e : exn) : M A := fun st => (st, Raise e).

(** [try: body / except Exception as e: handler(e)] *)
Definition try_except_Exception (body : M unit) (handler : exn -> M unit) : M unit :=
  fun st =>
    match body st with
    | (st', Ok tt) => (st', Ok tt)
    | (st', Raise e) =>
        if is_Exception e then handler e st' else (st', Raise e)
    end.

Notation "x <- c1 ;; c2" := (bind c1 (fun x => c2))
  (at level 100, c1 at next level, right associativity) : py_scope.
Notation "c1 ;; c2" := (bind c1 (fun _ => c2))
  (at level 100, right associativity) : py_scope.
Local Open Scope py_scope.

(** [for x in xs: acc = body(x, acc)] *)
Fixpoint for_in {A S : Type} (xs : list A) (body : A -> S -> M S) (acc : S) : M S :=
  match xs with
  | [] => ret acc
  | x :: xs' => acc' <- body x acc ;; for_in xs' body acc'
  end.

(** *** Primitive statements *)

(** [self.attr] *)
Definition attr {A} (f : BatchInference client -> A) : M A :=
  fun st => (st, Ok (f (self st))).

(** [print(s)] *)
Definition print (s : string) : M unit :=
  fun st =>
    (mk_state (self st) (world st) (files st) (stdout st ++ [s]) (calls st), Ok tt).

(** A call to a collaborator: the world moves and the call is logged with
    its outcome. *)
Definition call {A} (op : W -> W * result A) (log : result A -> event client) : M A :=
  fun st =>
    let '(w', r) := op (world st) in
    (mk_state (self st) w' (files st) (stdout st) (calls st ++ [log r]), r).

Definition call_list_obj_s3 (c : client) (bucket folder : string) : M (list string) :=
  call (list_obj_s3 c bucket folder) (Ev_list_obj_s3 c bucket folder).

Definition call_get_object (c : client) (Bucket Key : string) : M bytes :=
  call (get_object c Bucket Key) (Ev_get_object c Bucket Key).

Definition call_put_object (c : client) (Bucket Key : string) (Body : bytes) : M unit :=
  call (put_object c Bucket Key Body) (Ev_put_object c Bucket Key Body).

Definition call_create_model_invocation_job (c : client) (req : job_request) : M response :=
  call (create_model_invocation_job c req) (Ev_create_model_invocation_job c req).

(** [open(name, 'w')]: the file is created or truncated. *)
Definition open_w (name : string) : M unit :=
  fun st =>
    (mk_state (self st) (world st) (<[name := []]> (files st)) (stdout st) (calls st),
     Ok tt).

(** [f.write(s)] on the file opened under [name]. *)
Definition f_write (name : string) (s : string) : M unit :=
  fun st =>
    let old := default [] (files st !! name) in
    (mk_state (self st) (world st) (<[name := old ++ encode_text s]> (files st))
       (stdout st) (calls st),
     Ok tt).

(** [open(name, 'rb')] and the reading of the whole file. *)
Definition open_rb (name : string) : M bytes :=
  fun st =>
    match files st !! name with
    | Some content => (st, Ok content)
    | None => (st, Raise (FileNotFoundError name))
    end.

(** [response[k]] *)
Definition getitem (resp : response) (k : string) : M string :=
  match json.assoc k resp with
  | Some v => ret v
  | None => raise (KeyError k)
  end.

(** *** The messages printed *)

Definition msg_created : string :=
  ESC +:+ "[32mCreated JSONL file and store local copy as input.jsonl" +:+ ESC +:+ "[0m".
Definition msg_uploading (bucket : string) : string :=
  ESC +:+ "[31mUploading input.jsonl file to S3 bucket at path " +:+ bucket +:+
  "/input.jsonl" +:+ ESC +:+ "[0m".
Definition msg_uploaded : string := ESC +:+ "[32mUploaded file" +:+ ESC +:+ "[0m".
Definition msg_missing : string :=
  ESC +:+ "[31mInput jsonl file does not exist. Creating new one..." +:+ ESC +:+ "[0m".
Definition msg_exists : string :=
  ESC +:+ "[32mInput jsonl file already exists. No need to create a new one." +:+
  ESC +:+ "[0m".
Definition msg_starting : string :=
  ESC +:+ "[34mStarting model invocation job..." +:+ ESC +:+ "[0m".
Definition msg_job (arn : string) : string :=
  "Model invocation job created with ARN: " +:+ arn.

(** *** create_input_jsonl *)

(** Lines 28 to 52: the record of one image. *)
Definition json_obj_of (creation_prompt image_filename : string) (image_bytes : string)
  : value :=
  let content :=
    JList [
      JDict [
        ("type", JStr "image");
        ("source", JDict [
          ("type", JStr "base64");
          ("media_type", JStr "image/jpeg");
          ("data", JStr image_bytes)
        ])
      ]
    ] in
  JDict [
    ("recordId", JStr (posixpath.basename image_filename));
    ("modelInput", JDict [
      ("anthropic_version", JStr "bedrock-2023-05-31");
      ("max_tokens", JInt 1024);
      ("system", JStr creation_prompt);
      ("messages", JList [
        JDict [
          ("role", JStr "user");
          ("content", content)
        ]
      ])
    ])
  ].

(** Lines 24 to 53: the body of the loop over the listed keys. *)
Definition loop_body (image_filename : string) (input_json_file : list value)
  : M (list value) :=
  c <- attr s3_client ;;
  b <- attr bucket_name ;;
  image_binary <- call_get_object c b image_filename ;;
  let image_bytes := base64.b64encode image_binary in
  p <- attr creation_prompt ;;
  let json_obj := json_obj_of p image_filename image_bytes in
  ret (input_json_file ++ [json_obj]).

(** Line 57: one line of the file. *)
Definition write_line (json_obj : value) (_ : unit) : M unit :=
  f_write "input.jsonl" (json.dumps json_obj +:+ String LF EmptyString).

(** Lines 61 to 67: the body of the [try]. *)
Definition upload : M unit :=
  b <- attr bucket_name ;;
  print (msg_uploading b) ;;
  f <- open_rb "input.jsonl" ;;
  c <- attr s3_client ;;
  b' <- attr bucket_name ;;
  call_put_object c b' "input.jsonl" f ;;
  print msg_uploaded.

Definition create_input_jsonl : M unit :=
  c <- attr s3_client ;;
  b <- attr bucket_name ;;
  d <- attr folder_name ;;
  list_of_images <- call_list_obj_s3 c b d ;;
  input_json_file <- for_in list_of_images loop_body [] ;;
  open_w "input.jsonl" ;;
  for_in input_json_file write_line tt ;;
  print msg_created ;;
  try_except_Exception upload (fun e => print (exn_str e)).

(** *** start_batch_inference_job *)

(** Lines 134 to 155: the arguments of the job creation. *)
Definition job_request_of (o : BatchInference client) : job_request :=
  let inputDataConfig :=
    JDict [
      ("s3InputDataConfig", JDict [
        ("s3InputFormat", JStr "JSONL");
        ("s3Uri", JStr ("s3://" +:+ bucket_name o +:+ "/input.jsonl"))
      ])
    ] in
  let outputDataConfig :=
    JDict [
      ("s3OutputDataConfig", JDict [
        ("s3Uri", JStr ("s3://" +:+ bucket_name o +:+ "/" +:+ output_folder o))
      ])
    ] in
  {| jobName := job_name o;
     modelId := model_id o;
     inputDataConfig := inputDataConfig;
     outputDataConfig := outputDataConfig;
     roleArn := role_arn o |}.

(** [not l] for a list [l] *)
Definition not_ {A} (l : list A) : bool :=
  match l with
  | [] => true
  | _ :: _ => false
  end.

Definition start_batch_inference_job : M string :=
  c <- attr s3_client ;;
  b <- attr bucket_name ;;
  input_jsonl_yes_no <- call_list_obj_s3 c b "input.jsonl" ;;
  (if not_ input_jsonl_yes_no then
     print msg_missing ;;
     create_input_jsonl
   else
     print msg_exists) ;;
  req <- attr job_request_of ;;
  print msg_starting ;;
  bc <- attr bedrock_client ;;
  response <- call_create_model_invocation_job bc req ;;
  arn <- getitem response "jobArn" ;;
  print (msg_job arn) ;;
  getitem response "jobArn".

End Program.

Arguments M W client A : clear implicits.

Notation "x <- c1 ;; c2" := (bind c1 (fun x => c2))
  (at level 100, c1 at next level, right associativity) : py_scope.
Notation "c1 ;; c2" := (bind c1 (fun _ => c2))
  (at level 100, right associativity) : py_scope.

(** ** Observations on a run *)

(** The calls made between two states. *)
Definition new_calls {W client} (st st' : state W client) : list (event client) :=
  drop (length (calls st)) (calls st').

(** The lines printed between two states. *)
Definition new_stdout {W client} (st st' : state W client) : list string :=
  drop (length (stdout st)) (stdout st').

Definition get_failed {client} (ev : event client) : bool :=
  match ev with
  | Ev_get_object _ _ _ (Raise _) => true
  | _ => false
  end.

(** The log entry of a successful read. *)
Definition got {client} (c : client) (b : string) (k : string) (body : bytes) : event client :=
  Ev_get_object c b k (Ok body).

(** The text of a request file holding the given records. *)
Fixpoint jsonl (recs : list value) : string :=
  match recs with
  | [] => EmptyString
  | r :: recs' => json.dumps r +:+ String LF EmptyString +:+ jsonl recs'
  end.

(** The records built from the listed keys and the octets read for them,
    and the octets of the request file that holds them. *)
Definition records_of (prompt : string) (ks : list string) (bodies : list bytes)
  : list value :=
  zip_with (json_obj_of prompt) ks (List.map base64.b64encode bodies).

Definition request_file (prompt : string) (ks : list string) (bodies : list bytes)
  : bytes :=
  encode_text (jsonl (records_of prompt ks bodies)).

(** The outcome of [response['jobArn']] on the outcome of the job creation. *)
Definition job_outcome (jr : result response) (r : result string) : Prop :=
  match jr with
  | Raise e => r = Raise e
  | Ok resp =>
      match json.assoc "jobArn" resp with
      | Some arn => r = Ok arn
      | None => r = Raise (KeyError "jobArn")
      end
  end.


(** The exception of a failed listing, read or job creation. *)
Definition raised {client} (ev : event client) : option exn :=
  match ev with
  | Ev_list_obj_s3 _ _ _ (Raise e) => Some e
  | Ev_get_object _ _ _ (Raise e) => Some e
  | Ev_create_model_invocation_job _ _ (Raise e) => Some e
  | _ => None
  end.

(** A call whose exception ends the method: a failed listing or read, or
    an upload that raised something [except Exception] does not catch. *)
Definition ends_run {client} (ev : event client) : bool :=
  match ev with
  | Ev_list_obj_s3 _ _ _ (Raise _) => true
  | Ev_get_object _ _ _ (Raise _) => true
  | Ev_put_object _ _ _ _ (Raise e) => negb (is_Exception e)
  | _ => false
  end.

(** ** The runs of the two methods

    The three ways a call of [create_input_jsonl] can go, and the four ways
    a call of [start_batch_inference_job] can go, told by the outcomes of
    the calls to the collaborators. *)

Section Runs.

Context {W client : Type} `{Services W client}.
Implicit Types st : state W client.

(** A statement that leaves the attributes of [self] as they were. *)
Definition keeps_self {A} (m : M W client A) : Prop :=
  forall st, self (fst (m st)) = self st.

(** What the upload leaves: the result of the method and what it printed. *)
Definition upload_outcome (bucket : string) (pr : result unit) (r : result unit)
    (printed : list string) : Prop :=
  match pr with
  | Ok _ => r = Ok tt /\ printed = [msg_created; msg_uploading bucket; msg_uploaded]
  | Raise e =>
      if is_Exception e
      then r = Ok tt /\ printed = [msg_created; msg_uploading bucket; exn_str e]
      else r = Raise e /\ printed = [msg_created; msg_uploading bucket]
  end.

Inductive create_run st st' (r : result unit) : Prop :=
| create_list_raised (w1 : W) (e : exn) :
    list_obj_s3 (s3_client (self st)) (bucket_name (self st)) (folder_name (self st))
      (world st) = (w1, Raise e) ->
    r = Raise e ->
    calls st' = calls st ++
      [Ev_list_obj_s3 (s3_client (self st)) (bucket_name (self st))
         (folder_name (self st)) (Raise e)] ->
    files st' = files st ->
    stdout st' = stdout st ->
    create_run st st' r
| create_get_raised (w1 : W) (ks : list string) (bodies : list bytes)
    (k : string) (e : exn) :
    list_obj_s3 (s3_client (self st)) (bucket_name (self st)) (folder_name (self st))
      (world st) = (w1, Ok ks) ->
    ks !! length bodies = Some k ->
    r = Raise e ->
    calls st' = calls st ++
      Ev_list_obj_s3 (s3_client (self st)) (bucket_name (self st))
        (folder_name (self st)) (Ok ks) ::
      zip_with (got (s3_client (self st)) (bucket_name (self st))) ks bodies ++
      [Ev_get_object (s3_client (self st)) (bucket_name (self st)) k (Raise e)] ->
    files st' = files st ->
    stdout st' = stdout st ->
    create_run st st' r
| create_written (w1 : W) (ks : list string) (bodies : list bytes)
    (pr : result unit) :
    list_obj_s3 (s3_client (self st)) (bucket_name (self st)) (folder_name (self st))
      (world st) = (w1, Ok ks) ->
    length bodies = length ks ->
    files st' =
      <["input.jsonl" := request_file (creation_prompt (self st)) ks bodies]> (files st) ->
    calls st' = calls st ++
      Ev_list_obj_s3 (s3_client (self st)) (bucket_name (self st))
        (folder_name (self st)) (Ok ks) ::
      zip_with (got (s3_client (self st)) (bucket_name (self st))) ks bodies ++
      [Ev_put_object (s3_client (self st)) (bucket_name (self st)) "input.jsonl"
         (request_file (creation_prompt (self st)) ks bodies) pr] ->
    (exists printed,
       stdout st' = stdout st ++ printed /\
       upload_outcome (bucket_name (self st)) pr r printed) ->
    create_run st st' r.

(** The state when the check has found no request file: the check is
    logged and the message printed. *)
Definition after_check st (w1 : W) : state W client :=
  mk_state (self st) w1 (files st) (stdout st ++ [msg_missing])
    (calls st ++
     [Ev_list_obj_s3 (s3_client (self st)) (bucket_name (self st)) "input.jsonl"
        (Ok [])]).

Inductive start_run st st' (r : result string) : Prop :=
| start_check_raised (w1 : W) (e : exn) :
    list_obj_s3 (s3_client (self st)) (bucket_name (self st)) "input.jsonl"
      (world st) = (w1, Raise e) ->
    r = Raise e ->
    calls st' = calls st ++
      [Ev_list_obj_s3 (s3_client (self st)) (bucket_name (self st)) "input.jsonl"
         (Raise e)] ->
    start_run st st' r
| start_reused (w1 : W) (k : string) (ks : list string) (jr : result response) :
    list_obj_s3 (s3_client (self st)) (bucket_name (self st)) "input.jsonl"
      (world st) = (w1, Ok (k :: ks)) ->
    calls st' = calls st ++
      [Ev_list_obj_s3 (s3_client (self st)) (bucket_name (self st)) "input.jsonl"
         (Ok (k :: ks));
       Ev_create_model_invocation_job (bedrock_client (self st))
         (job_request_of (self st)) jr] ->
    job_outcome jr r ->
    start_run st st' r
| start_build_raised (w1 : W) (e : exn) :
    list_obj_s3 (s3_client (self st)) (bucket_name (self st)) "input.jsonl"
      (world st) = (w1, Ok []) ->
    create_run (after_check st w1) st' (Raise e) ->
    r = Raise e ->
    start_run st st' r
| start_built (w1 : W) (st1 : state W client) (jr : result response) :
    list_obj_s3 (s3_client (self st)) (bucket_name (self st)) "input.jsonl"
      (world st) = (w1, Ok []) ->
    create_run (after_check st w1) st1 (Ok tt) ->
    calls st' = calls st1 ++
      [Ev_create_model_invocation_job (bedrock_client (self st))
         (job_request_of (self st)) jr] ->
    files st' = files st1 ->
    job_outcome jr r ->
    start_run st st' r.

End Runs.

(** ** The wire format of a record, as the specification words it *)

Definition keys (v : value) : list string :=
  match v with
  | JDict d => List.map fst d
  | _ => []
  end.

(** [v[k1][k2]...]: a path of dictionary keys. *)
Fixpoint at_path (path : list string) (v : value) : option value :=
  match path with
  | [] => Some v
  | k :: path' =>
      match json.getitem k v with
      | Some v' => at_path path' v'
      | None => None
      end
  end.

(** A record has the wire shape for a system prompt when it is an object
    with the fields [recordId] (a string) and [modelInput]; [modelInput]
    holds [anthropic_version], [max_tokens] 1024, [system] and [messages];
    [messages] is an array of one user message, whose content is an array
    of one image entry with a base64 source of media type image/jpeg. *)
Definition wire_shape (prompt : string) (v : value) : Prop :=
  keys v = ["recordId"; "modelInput"] /\
  (exists rid, json.getitem "recordId" v = Some (JStr rid)) /\
  exists mi msg img src data,
    json.getitem "modelInput" v = Some mi /\
    keys mi = ["anthropic_version"; "max_tokens"; "system"; "messages"] /\
    json.getitem "anthropic_version" mi = Some (JStr "bedrock-2023-05-31") /\
    json.getitem "max_tokens" mi = Some (JInt 1024) /\
    json.getitem "system" mi = Some (JStr prompt) /\
    json.getitem "messages" mi = Some (JList [msg]) /\
    keys msg = ["role"; "content"] /\
    json.getitem "role" msg = Some (JStr "user") /\
    json.getitem "content" msg = Some (JList [img]) /\
    keys img = ["type"; "source"] /\
    json.getitem "type" img = Some (JStr "image") /\
    json.getitem "source" img = Some src /\
    keys src = ["type"; "media_type"; "data"] /\
    json.getitem "type" src = Some (JStr "base64") /\
    json.getitem "media_type" src = Some (JStr "image/jpeg") /\
    json.getitem "data" src = Some (JStr data).

(** The [recordId] of a record. *)
Definition record_id (v : value) : option string :=
  match json.getitem "recordId" v with
  | Some (JStr s) => Some s
  | _ => None
  end.

(** The [data] field of the image entry of a record. *)
Definition record_data (v : value) : option string :=
  match at_path ["modelInput"; "messages"] v with
  | Some (JList [msg]) =>
      match json.getitem "content" msg with
      | Some (JList [img]) =>
          match at_path ["source"; "data"] img with
          | Some (JStr s) => Some s
          | _ => None
          end
      | _ => None
      end
  | _ => None
  end.

(** A string between double quotes, nothing escaped. *)
Definition quoted (s : string) : string :=
  String json.DQUOTE (s +:+ String json.DQUOTE EmptyString).

(** The text of the line of a record, written out. *)
Definition wire_line (prompt record_id data : string) : string :=
  "{" +:+ quoted "recordId" +:+ ": " +:+ json.encode_basestring_ascii record_id +:+ ", " +:+
  quoted "modelInput" +:+ ": {" +:+
    quoted "anthropic_version" +:+ ": " +:+ quoted "bedrock-2023-05-31" +:+ ", " +:+
    quoted "max_tokens" +:+ ": 1024, " +:+
    quoted "system" +:+ ": " +:+ json.encode_basestring_ascii prompt +:+ ", " +:+
    quoted "messages" +:+ ": [{" +:+
      quoted "role" +:+ ": " +:+ quoted "user" +:+ ", " +:+
      quoted "content" +:+ ": [{" +:+
        quoted "type" +:+ ": " +:+ quoted "image" +:+ ", " +:+
        quoted "source" +:+ ": {" +:+
          quoted "type" +:+ ": " +:+ quoted "base64" +:+ ", " +:+
          quoted "media_type" +:+ ": " +:+ quoted "image/jpeg" +:+ ", " +:+
          quoted "data" +:+ ": " +:+ quoted data +:+
  "}}]}]}}".

(** ** An in-memory bucket and inference service

    A concrete instance of the collaborators, on which the methods can be
    run: the bucket is a list of keys with their contents, and each
    operation can be set to raise. *)

Module Mock.

Record world : Type := mk_world {
  objects : list (string * bytes);
  list_error : option exn;
  get_error : option exn;
  put_error : option exn;
  job_result : result response
}.

Definition list_obj (folder : string) (w : world) : world * result (list string) :=
  match list_error w with
  | Some e => (w, Raise e)
  | None =>
      (w, Ok (List.filter (fun k => String.prefix folder k) (List.map fst (objects w))))
  end.

Definition get (key : string) (w : world) : world * result bytes :=
  match get_error w with
  | Some e => (w, Raise e)
  | None =>
      match json.assoc key (objects w) with
      | Some body => (w, Ok body)
      | None => (w, Raise (mk_exn true "NoSuchKey"))
      end
  end.

Definition put (key : string) (body : bytes) (w : world) : world * result unit :=
  match put_error w with
  | Some e => (w, Raise e)
  | None =>
      (mk_world (objects w ++ [(key, body)]) (list_error w) (get_error w)
         (put_error w) (job_result w),
       Ok tt)
  end.

#[global] Instance services : Services world unit := {|
  list_obj_s3 := fun _ _ folder => list_obj folder;
  get_object := fun _ _ key => get key;
  put_object := fun _ _ key body => put key body;
  create_model_invocation_job := fun _ _ w => (w, job_result w)
|}.

(** The object of the examples. *)
Definition orchestrator : BatchInference unit :=
  init tt tt "bucket" "images/" "out/" "model-1" "Describe the image." "arn:role/batch"
    "job-1".

Definition start (w : world) : state world unit :=
  mk_state orchestrator w ∅ [] [].

Definition arn_response : result response := Ok [("jobArn", "arn:job/1")].

(** Two images, no request file. *)
Definition two_images : world :=
  mk_world [("images/a.jpg", [x4d; x61; x6e]); ("images/b.jpg", [x4d])]
    None None None arn_response.

(** Two images with the same base name in different folders. *)
Definition same_name : world :=
  mk_world [("images/x/a.jpg", [x4d]); ("images/y/a.jpg", [x61])]
    None None None arn_response.


(** The request file is already in the bucket. *)
Definition with_request_file : world :=
  mk_world [("images/a.jpg", [x4d]); ("input.jsonl", [x7b; x7d; x0a])]
    None None None arn_response.

Definition boom : exn := mk_exn true "boom".
Definition interrupt : exn := mk_exn false "KeyboardInterrupt".

Definition failing_put (e : exn) : world :=
  mk_world (objects two_images) None None (Some e) arn_response.
Definition failing_list (e : exn) : world :=
  mk_world (objects two_images) (Some e) None None arn_response.
Definition failing_get (e : exn) : world :=
  mk_world (objects two_images) None (Some e) None arn_response.
Definition failing_job (e : exn) : world :=
  mk_world (objects with_request_file) None None None (Raise e).

End Mock.

(** ** Reading a request file back

    What a reader of the file does with a line: it strips the fixed text
    around the three strings of a record and undoes the escapes of
    [json.dumps].  Only the escapes [json.dumps] writes for the characters
    of the model are read (the short escapes and [\u00XX] with lower-case
    digits). *)

Module json_read.

Definition hex_value (c : ascii) : option N :=
  base64.index_from 0 c "0123456789abcdef".

(** The character a two-character escape stands for. *)
Definition short_escape (c : ascii) : option ascii :=
  if Ascii.eqb c json.DQUOTE then Some json.DQUOTE
  else if Ascii.eqb c json.BACKSLASH then Some json.BACKSLASH
  else if Ascii.eqb c "b" then Some (ascii_of_nat 8)
  else if Ascii.eqb c "f" then Some (ascii_of_nat 12)
  else if Ascii.eqb c "n" then Some (ascii_of_nat 10)
  else if Ascii.eqb c "r" then Some (ascii_of_nat 13)
  else if Ascii.eqb c "t" then Some (ascii_of_nat 9)
  else None.

(** Reads a JSON string from after its opening quote to its closing quote:
    the string it stands for, and the text after the closing quote. *)
Fixpoint read_string (s : string) : option (string * string) :=
  match s with
  | EmptyString => None
  | String c rest =>
      if Ascii.eqb c json.DQUOTE then Some (EmptyString, rest)
      else if Ascii.eqb c json.BACKSLASH then
        match rest with
        | EmptyString => None
        | String d rest1 =>
            if Ascii.eqb d "u" then
              match rest1 with
              | String h1 (String h2 (String h3 (String h4 rest2))) =>
                  match hex_value h1, hex_value h2, hex_value h3, hex_value h4,
                        read_string rest2 with
                  | Some 0%N, Some 0%N, Some a, Some b, Some (t, tl) =>
                      Some (String (ascii_of_N (16 * a + b)) t, tl)
                  | _, _, _, _, _ => None
                  end
              | _ => None
              end
            else
              match short_escape d, read_string rest1 with
              | Some x, Some (t, tl) => Some (String x t, tl)
              | _, _ => None
              end
        end
      else
        match read_string rest with
        | Some (t, tl) => Some (String c t, tl)
        | None => None
        end
  end.

(** [s] without its prefix [p], when it has it. *)
Fixpoint strip_prefix (p s : string) : option string :=
  match p, s with
  | EmptyString, _ => Some s
  | String a p', String b s' => if Ascii.eqb a b then strip_prefix p' s' else None
  | String _ _, EmptyString => None
  end.

(** The fixed text of a line: before the record identifier, between the
    identifier and the prompt, between the prompt and the data, and after
    the data. *)
Definition before_id : string :=
  "{" +:+ quoted "recordId" +:+ ": " +:+ String json.DQUOTE EmptyString.

Definition before_system : string :=
  ", " +:+ quoted "modelInput" +:+ ": {" +:+
  quoted "anthropic_version" +:+ ": " +:+ quoted "bedrock-2023-05-31" +:+ ", " +:+
  quoted "max_tokens" +:+ ": 1024, " +:+
  quoted "system" +:+ ": " +:+ String json.DQUOTE EmptyString.

Definition before_data : string :=
  ", " +:+ quoted "messages" +:+ ": [{" +:+
  quoted "role" +:+ ": " +:+ quoted "user" +:+ ", " +:+
  quoted "content" +:+ ": [{" +:+
  quoted "type" +:+ ": " +:+ quoted "image" +:+ ", " +:+
  quoted "source" +:+ ": {" +:+
  quoted "type" +:+ ": " +:+ quoted "base64" +:+ ", " +:+
  quoted "media_type" +:+ ": " +:+ quoted "image/jpeg" +:+ ", " +:+
  quoted "data" +:+ ": " +:+ String json.DQUOTE EmptyString.

Definition after_data : string := "}}]}]}}".

(** The record identifier, the system prompt and the data of a line. *)
Definition read_line (line : string) : option (string * string * string) :=
  match strip_prefix before_id line with
  | None => None
  | Some s1 =>
      match read_string s1 with
      | None => None
      | Some (rid, s2) =>
          match strip_prefix before_system s2 with
          | None => None
          | Some s3 =>
              match read_string s3 with
              | None => None
              | Some (prompt, s4) =>
                  match strip_prefix before_data s4 with
                  | None => None
                  | Some s5 =>
                      match read_string s5 with
                      | Some (data, s6) =>
                          if String.eqb s6 after_data
                          then Some (rid, prompt, data)
                          else None
                      | None => None
                      end
                  end
              end
          end
      end
  end.

End json_read.

(** The record identifier read from a line. *)
Definition line_id (line : string) : option string :=
  match json_read.read_line line with
  | Some (rid, _, _) => Some rid
  | None => None
  end.

(** ** More scenarios on the in-memory bucket *)

Module Scenario.

(** The inference service answers without the field [jobArn]. *)
Definition no_arn : Mock.world :=
  Mock.mk_world (Mock.objects Mock.with_request_file) None None None
    (Ok [("status", "Submitted")]).

(** A working directory that already holds a file of notes and an old
    request file. *)
Definition with_local_files (w : Mock.world) : state Mock.world unit :=
  mk_state Mock.orchestrator w
    (<["notes.txt" := [x4d]]> (<["input.jsonl" := [x61]]> ∅)) [] [].

(** Another object on the same bucket, for another folder and prompt. *)
Definition other_orchestrator : BatchInference unit :=
  init tt tt "bucket" "scans/" "out/" "model-1" "Transcribe the text." "arn:role/batch"
    "job-1".

(** An image whose name holds a double quote, a backslash and a line feed,
    with a prompt of two lines. *)
Definition odd_key : string :=
  "images/a" +:+ String json.DQUOTE (String json.BACKSLASH (String LF "b.jpg")).

Definition odd_orchestrator : BatchInference unit :=
  init tt tt "bucket" "images/" "out/" "model-1"
    ("Line one" +:+ String LF "line two") "arn:role/batch" "job-1".

Definition odd_names : Mock.world :=
  Mock.mk_world [(odd_key, [x4d; x61])] None None None Mock.arn_response.

End Scenario.

(** ** More observations on a run *)

(** The keys of the reads of a log, in the order of the calls. *)
Definition read_keys {client} (log : list (event client)) : list string :=
  flat_map (fun ev => match ev with
                      | Ev_get_object _ _ k _ => [k]
                      | _ => []
                      end) log.

(** An octet of a request file: a line feed or a character from space to
    tilde.  What is proved of the octets of the file rests on the two
    conventions of the model: a [str] holds code points 0..255 only, and the
    text-mode write is the POSIX one, without newline translation (see
    [encode_text]). *)
Definition jsonl_byte (b : byte) : bool :=
  ((Byte.to_N b =? 10) || ((32 <=? Byte.to_N b) && (Byte.to_N b <=? 126)))%N.

(** The number of line feeds. *)
Definition count_LF (bs : bytes) : nat :=
  length (List.filter (Byte.eqb x0a) bs).

Definition no_slash (c : ascii) : bool := negb (Ascii.eqb c "/").

Section Frames.

Context {W client : Type} `{Services W client}.
Local Open Scope py_scope.

(** Lines 134 to 158: the statements of [start_batch_inference_job] after
    the [if]. *)
Definition submit : M W client string :=
  req <- attr job_request_of ;;
  print msg_starting ;;
  bc <- attr bedrock_client ;;
  response <- call_create_model_invocation_job bc req ;;
  arn <- getitem response "jobArn" ;;
  print (msg_job arn) ;;
  getitem response "jobArn".

(** A statement that leaves every local file but [input.jsonl] as it was. *)
Definition keeps_other_files {A} (m : M W client A) : Prop :=
  forall (st : state W client) (name : string),
    name <> "input.jsonl" ->
    files (fst (m st)) !! name = files st !! name.

(** A call made with the clients, the bucket and the job arguments of the
    object, and, for an upload, with the key [input.jsonl]. *)
Definition uses_configuration (o : BatchInference client) (ev : event client) : Prop :=
  match ev with
  | Ev_list_obj_s3 c b _ _ => c = s3_client o /\ b = bucket_name o
  | Ev_get_object c b _ _ => c = s3_client o /\ b = bucket_name o
  | Ev_put_object c b k _ _ =>
      c = s3_client o /\ b = bucket_name o /\ k = "input.jsonl"
  | Ev_create_model_invocation_job bc req _ =>
      bc = bedrock_client o /\ req = job_request_of o
  end.

End Frames.

(** ** Proof automation *)

(** Goals on quotients and remainders by constants. *)
Ltac euclid := zify; Z.to_euclidean_division_equations; lia.

(** The lemmas that a statement leaves the attributes of [self] alone. *)
Create HintDb frame.

(** The lemmas that a statement leaves the other local files alone. *)
Create HintDb files_frame.

(** * Properties of the library functions *)

(** ** Strings *)

Lemma append_nil (b : string) : EmptyString +:+ b = b.
Proof. reflexivity. Qed.

Lemma append_cons (c : ascii) (a b : string) : String c a +:+ b = String c (a +:+ b).
Proof. reflexivity. Qed.

Lemma string_forall_app (p : ascii -> bool) (a b : string) :
  string_forall p (a +:+ b) = string_forall p a && string_forall p b.
Proof.
  induction a as [| c a IH]; [reflexivity |].
  rewrite append_cons. cbn [string_forall]. now rewrite IH, andb_assoc.
Qed.

Lemma string_forall_impl (p q : ascii -> bool) (s : string) :
  (forall c, p c = true -> q c = true) ->
  string_forall p s = true -> string_forall q s = true.
Proof.
  intros Hpq. induction s as [| c s IH]; simpl; [reflexivity |].
  intros [Hc Hs]%andb_true_iff. apply andb_true_iff. auto.
Qed.

Lemma printable_not_LF (c : ascii) : printable c = true -> not_LF c = true.
Proof.
  unfold printable, not_LF. intros [Hlo _]%andb_true_iff.
  destruct (Ascii.eqb_spec c LF) as [-> | _]; [discriminate | reflexivity].
Qed.

Lemma app_assoc_s (a b c : string) : (a +:+ b) +:+ c = a +:+ (b +:+ c).
Proof.
  induction a as [| x a IH]; [reflexivity |].
  rewrite !append_cons. now f_equal.
Qed.

Lemma encode_text_app (a b : string) :
  encode_text (a +:+ b) = encode_text a ++ encode_text b.
Proof.
  unfold encode_text, list_byte_of_string.
  induction a as [| c a IH]; [reflexivity |].
  rewrite append_cons. cbn [list_ascii_of_string List.map app]. now rewrite IH.
Qed.

(** A run of characters without a line feed, followed by a line feed, is
    one line. *)
Lemma lines_cons (l rest : string) :
  string_forall not_LF l = true ->
  lines (l +:+ String LF rest) = l :: lines rest.
Proof.
  induction l as [| c l IH].
  - intros _. rewrite append_nil. cbn [lines]. now rewrite Ascii.eqb_refl.
  - intros [Hc Hl]%andb_true_iff. unfold not_LF in Hc.
    apply negb_true_iff in Hc.
    rewrite append_cons. cbn [lines]. rewrite Hc, IH by assumption. reflexivity.
Qed.

(** ** base64 *)

Module base64_facts.
Import base64.
Local Open Scope N_scope.

Lemma lor_shiftl_add (a b k : N) :
  b < 2 ^ k -> N.lor (N.shiftl a k) b = a * 2 ^ k + b.
Proof.
  intros Hb.
  assert (Hdisj : N.land (N.shiftl a k) b = 0).
  { apply N.bits_inj; intro i.
    rewrite N.land_spec, N.bits_0.
    destruct (N.lt_ge_cases i k) as [Hi | Hi].
    - now rewrite N.shiftl_spec_low.
    - rewrite <- (N.mod_small b (2 ^ k)) by assumption.
      rewrite N.mod_pow2_bits_high by assumption.
      apply andb_false_r. }
  rewrite <- N.lxor_lor by assumption.
  rewrite <- N.add_nocarry_lxor by assumption.
  now rewrite N.shiftl_mul_pow2.
Qed.

Lemma land_low (a k : N) : N.land a (N.ones k) = a mod 2 ^ k.
Proof. apply N.land_ones. Qed.

Lemma sextets_arith (x0 x1 x2 : N) :
  x1 < 256 -> x2 < 256 ->
  sextets x0 x1 x2 =
    (x0 / 4, (x0 mod 4) * 16 + x1 / 16, (x1 mod 16) * 4 + x2 / 64, x2 mod 64).
Proof.
  intros H1 H2. unfold sextets.
  change 3 with (N.ones 2). change 15 with (N.ones 4). change 63 with (N.ones 6).
  rewrite !land_low, !N.shiftr_div_pow2.
  rewrite !lor_shiftl_add.
  - reflexivity.
  - change (2 ^ 6) with 64. change (2 ^ 2) with 4. euclid.
  - change (2 ^ 4) with 16. euclid.
Qed.

Lemma b2a_a2b (n : N) : n < 64 -> a2b (b2a n) = Some n.
Proof.
  intros Hn. destruct n as [| p]; [reflexivity |].
  do 6 (destruct p as [p | p |]; try reflexivity); exfalso; lia.
Qed.

Lemma b2a_not_pad (n : N) : n < 64 -> Ascii.eqb (b2a n) "=" = false.
Proof.
  intros Hn. destruct n as [| p]; [reflexivity |].
  do 6 (destruct p as [p | p |]; try reflexivity); exfalso; lia.
Qed.

Lemma octets_arith (s0 s1 s2 s3 : N) :
  s1 < 64 -> s2 < 64 -> s3 < 64 ->
  octets s0 s1 s2 s3 =
    (octet (s0 * 4 + s1 / 16),
     octet ((s1 mod 16) * 16 + s2 / 4),
     octet ((s2 mod 4) * 64 + s3)).
Proof.
  intros H1 H2 H3. unfold octets.
  change 3 with (N.ones 2). change 15 with (N.ones 4).
  rewrite !land_low, !N.shiftr_div_pow2.
  rewrite !lor_shiftl_add.
  - reflexivity.
  - exact H3.
  - change (2 ^ 4) with 16. change (2 ^ 2) with 4. euclid.
  - change (2 ^ 4) with 16. change (2 ^ 2) with 4. euclid.
Qed.

Lemma octet_to_N (b : byte) (n : N) : n = Byte.to_N b -> octet n = b.
Proof. intros ->. unfold octet. now rewrite Byte.of_to_N. Qed.

Lemma to_N_lt (b : byte) : Byte.to_N b < 256.
Proof. pose proof (Byte.to_N_bounded b). lia. Qed.

(** Induction three octets at a time, the way [b64encode] recurses. *)
Lemma bytes_ind3 (P : bytes -> Prop) :
  P [] -> (forall b0, P [b0]) -> (forall b0 b1, P [b0; b1]) ->
  (forall b0 b1 b2 rest, P rest -> P (b0 :: b1 :: b2 :: rest)) ->
  forall bs, P bs.
Proof.
  intros H0 H1 H2 H3.
  fix IH 1. intros [| b0 [| b1 [| b2 rest]]];
    [exact H0 | apply H1 | apply H2 | apply H3, IH].
Qed.

Lemma b64decode_b64encode (bs : bytes) : b64decode (b64encode bs) = Some bs.
Proof.
  induction bs as [| b0 | b0 b1 | b0 b1 b2 rest IH] using bytes_ind3.
  - reflexivity.
  - pose proof (to_N_lt b0) as L0.
    cbn [b64encode]. rewrite sextets_arith by lia.
    cbn [b64decode].
    rewrite !b2a_a2b by euclid.
    change (Ascii.eqb "=" "=") with true. cbn match.
    rewrite octets_arith by euclid.
    f_equal. f_equal. apply octet_to_N. euclid.
  - pose proof (to_N_lt b0) as L0. pose proof (to_N_lt b1) as L1.
    cbn [b64encode]. rewrite sextets_arith by lia.
    cbn [b64decode].
    rewrite !b2a_a2b by euclid.
    change (Ascii.eqb "=" "=") with true. cbn match.
    rewrite b2a_not_pad by euclid.
    rewrite octets_arith by euclid.
    f_equal. f_equal; [| f_equal]; apply octet_to_N; euclid.
  - pose proof (to_N_lt b0) as L0. pose proof (to_N_lt b1) as L1.
    pose proof (to_N_lt b2) as L2.
    cbn [b64encode]. rewrite sextets_arith by lia.
    cbn [b64decode]. rewrite IH.
    rewrite !b2a_a2b by euclid.
    rewrite b2a_not_pad by euclid.
    rewrite octets_arith by euclid.
    f_equal. f_equal; [| f_equal; [| f_equal]]; apply octet_to_N; euclid.
Qed.


Lemma b2a_plain (n : N) :
  n < 64 -> json.escape_char (b2a n) = String (b2a n) EmptyString.
Proof.
  intros Hn. destruct n as [| p]; [reflexivity |].
  do 6 (destruct p as [p | p |]; try reflexivity); exfalso; lia.
Qed.

(** No character of an encoding needs an escape in a JSON string. *)
Lemma escape_b64encode (bs : bytes) : json.escape (b64encode bs) = b64encode bs.
Proof.
  induction bs as [| b0 | b0 b1 | b0 b1 b2 rest IH] using bytes_ind3.
  - reflexivity.
  - pose proof (to_N_lt b0) as L0.
    cbn [b64encode]. rewrite sextets_arith by lia.
    cbn [json.escape]. rewrite !b2a_plain by euclid. reflexivity.
  - pose proof (to_N_lt b0) as L0. pose proof (to_N_lt b1) as L1.
    cbn [b64encode]. rewrite sextets_arith by lia.
    cbn [json.escape]. rewrite !b2a_plain by euclid. reflexivity.
  - pose proof (to_N_lt b0) as L0. pose proof (to_N_lt b1) as L1.
    pose proof (to_N_lt b2) as L2.
    cbn [b64encode]. rewrite sextets_arith by lia.
    cbn [json.escape]. rewrite !b2a_plain by euclid. rewrite IH. reflexivity.
Qed.

End base64_facts.

(** ** json.dumps *)

Module json_facts.
Import json.

(** The induction principle of JSON values, through lists and
    dictionaries. *)
Lemma value_ind' (P : value -> Prop) :
  (forall s, P (JStr s)) ->
  (forall n, P (JInt n)) ->
  (forall l, Forall P l -> P (JList l)) ->
  (forall d, Forall (fun kv => P (snd kv)) d -> P (JDict d)) ->
  forall v, P v.
Proof.
  intros HStr HInt HList HDict.
  fix IH 1. intros [s | n | l | d].
  - apply HStr.
  - apply HInt.
  - apply HList. induction l as [| v l IHl]; constructor; [apply IH | exact IHl].
  - apply HDict. induction d as [| [k v] d IHd]; constructor; [apply IH | exact IHd].
Qed.

Lemma escape_char_printable (c : ascii) :
  string_forall printable (escape_char c) = true.
Proof.
  destruct c as [[] [] [] [] [] [] [] []]; reflexivity.
Qed.

Lemma escape_printable (s : string) : string_forall printable (escape s) = true.
Proof.
  induction s as [| c s IH]; [reflexivity |].
  cbn [escape]. now rewrite string_forall_app, escape_char_printable, IH.
Qed.

Lemma encode_basestring_ascii_printable (s : string) :
  string_forall printable (encode_basestring_ascii s) = true.
Proof.
  unfold encode_basestring_ascii. cbn [string_forall].
  now rewrite string_forall_app, escape_printable.
Qed.

Lemma digits_printable (d : Decimal.uint) :
  string_forall printable (NilEmpty.string_of_uint d) = true.
Proof.
  induction d as [| d IH | d IH | d IH | d IH | d IH | d IH | d IH | d IH | d IH | d IH];
    simpl; [reflexivity | exact IH ..].
Qed.

Lemma string_of_uint_printable (d : Decimal.uint) :
  string_forall printable (NilZero.string_of_uint d) = true.
Proof.
  unfold NilZero.string_of_uint. destruct d; try reflexivity; apply digits_printable.
Qed.

Lemma int_repr_printable (n : Z) : string_forall printable (int_repr n) = true.
Proof.
  unfold int_repr, NilZero.string_of_int.
  destruct (Z.to_int n); cbn [string_forall]; now rewrite string_of_uint_printable.
Qed.

Lemma join_printable (sep : string) (l : list string) :
  string_forall printable sep = true ->
  Forall (fun x => string_forall printable x = true) l ->
  string_forall printable (join sep l) = true.
Proof.
  intros Hsep. induction 1 as [| x l Hx Hl IH]; [reflexivity |].
  destruct l as [| y l]; [exact Hx |].
  change (join sep (x :: y :: l)) with (x +:+ sep +:+ join sep (y :: l)).
  now rewrite !string_forall_app, Hx, Hsep, IH.
Qed.

(** [json.dumps] writes characters from space to tilde only. *)
Lemma dumps_printable (v : value) : string_forall printable (dumps v) = true.
Proof.
  induction v as [s | n | l IH | d IH] using value_ind'.
  - apply encode_basestring_ascii_printable.
  - apply int_repr_printable.
  - cbn [dumps]. rewrite !string_forall_app, join_printable; [reflexivity .. |].
    induction IH; constructor; assumption.
  - cbn [dumps]. rewrite !string_forall_app, join_printable; [reflexivity .. |].
    induction IH as [| [k v] d Hv Hd IHd]; constructor; [| exact IHd].
    cbn [fst snd] in *.
    now rewrite !string_forall_app, encode_basestring_ascii_printable, Hv.
Qed.

(** In particular it writes no line feed. *)
Lemma dumps_no_LF (v : value) : string_forall not_LF (dumps v) = true.
Proof.
  apply string_forall_impl with (p := printable);
    [exact printable_not_LF | apply dumps_printable].
Qed.

Lemma lines_jsonl (recs : list value) : lines (jsonl recs) = List.map dumps recs.
Proof.
  induction recs as [| r recs IH]; [reflexivity |].
  cbn [jsonl List.map]. rewrite append_cons, append_nil.
  rewrite lines_cons by apply dumps_no_LF.
  now rewrite IH.
Qed.

Lemma jsonl_app (a b : list value) : jsonl (a ++ b) = jsonl a +:+ jsonl b.
Proof.
  induction a as [| r a IH]; [reflexivity |].
  cbn [jsonl app]. now rewrite IH, !app_assoc_s.
Qed.

End json_facts.

(** * Properties of the records *)

Lemma record_id_json_obj_of (p k d : string) :
  record_id (json_obj_of p k d) = Some (posixpath.basename k).
Proof. reflexivity. Qed.

Lemma record_data_json_obj_of (p k d : string) :
  record_data (json_obj_of p k d) = Some d.
Proof. reflexivity. Qed.

Lemma wire_shape_json_obj_of (p k d : string) : wire_shape p (json_obj_of p k d).
Proof.
  split; [reflexivity |]. split; [eexists; reflexivity |].
  do 5 eexists. repeat (split; [reflexivity |]). reflexivity.
Qed.

Lemma encode_b64encode (body : bytes) :
  json.encode_basestring_ascii (base64.b64encode body) = quoted (base64.b64encode body).
Proof.
  unfold json.encode_basestring_ascii, quoted.
  now rewrite base64_facts.escape_b64encode.
Qed.

(** The line of a record, character by character. *)
Lemma dumps_json_obj_of (p k : string) (body : bytes) :
  json.dumps (json_obj_of p k (base64.b64encode body)) =
  wire_line p (posixpath.basename k) (base64.b64encode body).
Proof.
  unfold wire_line. rewrite <- encode_b64encode.
  unfold json_obj_of. cbn [json.dumps List.map json.join fst snd].
  rewrite !app_assoc_s.
  reflexivity.
Qed.

(** * Properties of the methods *)

Section Run.
Context {W client : Type} `{Services W client}.
Local Open Scope py_scope.
Implicit Types st : state W client.

Lemma loop_body_run (k : string) (acc : list value) st :
  loop_body k acc st =
  let c := s3_client (self st) in
  let b := bucket_name (self st) in
  let '(w', r) := get_object c b k (world st) in
  let st1 := mk_state (self st) w' (files st) (stdout st)
               (calls st ++ [Ev_get_object c b k r]) in
  match r with
  | Ok body =>
      (st1, Ok (acc ++ [json_obj_of (creation_prompt (self st)) k
                          (base64.b64encode body)]))
  | Raise e => (st1, Raise e)
  end.
Proof.
  unfold loop_body, bind, attr, call_get_object, call, ret. cbn.
  destruct (get_object _ _ k (world st)) as [w' [body | e]]; reflexivity.
Qed.

Lemma fetch_loop (ks : list string) :
  forall (acc : list value) st st' r,
    for_in ks loop_body acc st = (st', r) ->
    self st' = self st /\ files st' = files st /\ stdout st' = stdout st /\
    exists bodies : list bytes,
      let c := s3_client (self st) in
      let b := bucket_name (self st) in
      match r with
      | Ok recs =>
          length bodies = length ks /\
          calls st' = calls st ++ zip_with (got c b) ks bodies /\
          recs = acc ++ zip_with (json_obj_of (creation_prompt (self st))) ks
                           (List.map base64.b64encode bodies)
      | Raise e =>
          exists k, ks !! length bodies = Some k /\
            calls st' = calls st ++ zip_with (got c b) ks bodies ++
                        [Ev_get_object c b k (Raise e)]
      end.
Proof.
  induction ks as [| k ks IH]; intros acc st st' r Hrun.
  - cbn in Hrun. injection Hrun as <- <-. repeat split.
    exists []. cbn. rewrite !app_nil_r. auto.
  - cbn [for_in] in Hrun. unfold bind in Hrun. rewrite loop_body_run in Hrun.
    cbn zeta in Hrun.
    destruct (get_object _ _ k (world st)) as [w' [body | e]].
    + apply IH in Hrun. cbn [self files stdout calls] in Hrun.
      destruct Hrun as (Hs & Hf & Ho & bodies & Hr).
      repeat split; try assumption.
      exists (body :: bodies). cbn zeta in *.
      destruct r as [recs | e].
      * destruct Hr as (Hlen & Hcalls & Hrecs).
        cbn [length List.map zip_with]. repeat split.
        -- now rewrite Hlen.
        -- now rewrite Hcalls, <- app_assoc.
        -- now rewrite Hrecs, <- app_assoc.
      * destruct Hr as (k' & Hk & Hcalls). exists k'. split; [exact Hk |].
        cbn [zip_with]. now rewrite Hcalls, <- !app_assoc.
    + injection Hrun as <- <-. cbn [self files stdout calls]. repeat split.
      exists []. exists k. split; reflexivity.
Qed.

Lemma state_eta st :
  mk_state (self st) (world st) (files st) (stdout st) (calls st) = st.
Proof. now destruct st. Qed.

(** The second loop appends the lines of the records to the file. *)
Lemma write_lines (recs : list value) :
  forall st (old : bytes),
    files st !! "input.jsonl" = Some old ->
    for_in recs write_line tt st =
    (mk_state (self st) (world st)
       (<["input.jsonl" := old ++ encode_text (jsonl recs)]> (files st))
       (stdout st) (calls st),
     Ok tt).
Proof.
  induction recs as [| rec recs IH]; intros st old Hold.
  - cbn [for_in jsonl]. unfold ret, encode_text. cbn [list_byte_of_string].
    rewrite app_nil_r, insert_id by exact Hold. now rewrite state_eta.
  - cbn [for_in]. unfold bind. unfold write_line at 1. unfold f_write.
    rewrite Hold. cbn [default].
    rewrite (IH _ (old ++ encode_text (json.dumps rec +:+ String LF EmptyString)))
      by apply lookup_insert_eq.
    cbn [self world files stdout calls].
    rewrite insert_insert_eq. cbn [jsonl].
    now rewrite <- app_assoc, <- encode_text_app, app_assoc_s.
Qed.

(** The [try] statement, by the outcome of [put_object]. *)
Lemma try_upload_run st (content : bytes) :
  files st !! "input.jsonl" = Some content ->
  try_except_Exception upload (fun e => print (exn_str e)) st =
  let c := s3_client (self st) in
  let b := bucket_name (self st) in
  let '(w', pr) := put_object c b "input.jsonl" content (world st) in
  let log := calls st ++ [Ev_put_object c b "input.jsonl" content pr] in
  match pr with
  | Ok _ =>
      (mk_state (self st) w' (files st)
         ((stdout st ++ [msg_uploading b]) ++ [msg_uploaded]) log, Ok tt)
  | Raise e =>
      if is_Exception e then
        (mk_state (self st) w' (files st)
           ((stdout st ++ [msg_uploading b]) ++ [exn_str e]) log, Ok tt)
      else
        (mk_state (self st) w' (files st) (stdout st ++ [msg_uploading b]) log,
         Raise e)
  end.
Proof.
  intros Hfile.
  unfold try_except_Exception, upload, bind, attr, print, open_rb,
    call_put_object, call.
  cbn [self world files stdout calls]. rewrite Hfile.
  cbn [self world files stdout calls].
  destruct (put_object _ _ _ content (world st)) as [w' [[] | e]];
    [reflexivity |].
  destruct (is_Exception e); reflexivity.
Qed.

Lemma create_input_jsonl_run st st' r :
  create_input_jsonl st = (st', r) -> create_run st st' r.
Proof.
  unfold create_input_jsonl.
  unfold bind at 1 2 3 4, attr, call_list_obj_s3, call.
  destruct (list_obj_s3 _ _ _ (world st)) as [w1 [ks | e]] eqn:Hlist.
  2: { intros [= <- <-]. now apply (create_list_raised st _ _ w1 e). }
  unfold bind at 1.
  destruct (for_in ks loop_body [] _) as [st2 [recs | e]] eqn:Hloop;
    apply fetch_loop in Hloop; cbn [self world files stdout calls] in Hloop;
    destruct Hloop as (Hself & Hfiles & Hout & bodies & Hr).
  2: { intros [= <- <-]. destruct Hr as (k & Hk & Hcalls).
       apply (create_get_raised st _ _ w1 ks bodies k e); auto.
       now rewrite Hcalls, <- app_assoc. }
  destruct Hr as (Hlen & Hcalls & Hrecs). cbn [app] in Hrecs.
  unfold bind at 1, open_w. unfold bind at 1.
  rewrite (write_lines recs _ []) by apply lookup_insert_eq.
  cbn [self world files stdout calls app].
  unfold bind, print at 1. cbn [self world files stdout calls].
  rewrite insert_insert_eq.
  rewrite (try_upload_run _ (encode_text (jsonl recs))) by apply lookup_insert_eq.
  cbn [self world files stdout calls]. rewrite Hself.
  destruct (put_object _ _ _ _ (world st2)) as [w3 pr] eqn:Hput.
  intros Hrun.
  apply (create_written st _ _ w1 ks bodies pr); auto.
  - unfold request_file, records_of. rewrite <- Hrecs.
    destruct pr as [[] | e]; [| destruct (is_Exception e)];
      injection Hrun as <- <-; cbn [files]; now rewrite Hfiles.
  - unfold request_file, records_of. rewrite <- Hrecs.
    destruct pr as [[] | e]; [| destruct (is_Exception e)];
      injection Hrun as <- <-; cbn [calls];
      now rewrite Hcalls, <- !app_assoc.
  - unfold upload_outcome.
    destruct pr as [[] | e]; [| destruct (is_Exception e)];
      injection Hrun as <- <-; cbn [stdout]; rewrite Hout;
      eexists; (split; [| split; reflexivity]); now rewrite <- !app_assoc.
Qed.

(** *** The attributes are only read *)

Lemma keeps_self_ret {A} (a : A) : keeps_self (ret (W := W) (client := client) a).
Proof. intros st. reflexivity. Qed.

Lemma keeps_self_raise {A} (e : exn) :
  keeps_self (raise (W := W) (client := client) (A := A) e).
Proof. intros st. reflexivity. Qed.

Lemma keeps_self_bind {A B} (m : M W client A) (k : A -> M W client B) :
  keeps_self m -> (forall a, keeps_self (k a)) -> keeps_self (bind m k).
Proof.
  intros Hm Hk st. unfold bind. specialize (Hm st).
  destruct (m st) as [st1 [a | e]]; cbn [fst] in *; [| exact Hm].
  now rewrite Hk.
Qed.

Lemma keeps_self_try (body : M W client unit) (handler : exn -> M W client unit) :
  keeps_self body -> (forall e, keeps_self (handler e)) ->
  keeps_self (try_except_Exception body handler).
Proof.
  intros Hm Hk st. unfold try_except_Exception. specialize (Hm st).
  destruct (body st) as [st1 [[] | e]]; cbn [fst] in *; [exact Hm |].
  destruct (is_Exception e); [now rewrite Hk | exact Hm].
Qed.

Lemma keeps_self_for_in {A S} (xs : list A) (body : A -> S -> M W client S) :
  (forall x acc, keeps_self (body x acc)) ->
  forall acc, keeps_self (for_in xs body acc).
Proof.
  intros Hbody. induction xs as [| x xs IH]; intros acc; cbn [for_in].
  - apply keeps_self_ret.
  - apply keeps_self_bind; [apply Hbody | exact IH].
Qed.

Lemma keeps_self_attr {A} (f : BatchInference client -> A) :
  keeps_self (attr (W := W) f).
Proof. intros st. reflexivity. Qed.

Lemma keeps_self_print (s : string) :
  keeps_self (print (W := W) (client := client) s).
Proof. intros st. reflexivity. Qed.

Lemma keeps_self_call {A} (op : W -> W * result A) (log : result A -> event client) :
  keeps_self (call op log).
Proof. intros st. unfold call. now destruct (op (world st)). Qed.

Lemma keeps_self_open_w (name : string) :
  keeps_self (open_w (W := W) (client := client) name).
Proof. intros st. reflexivity. Qed.

Lemma keeps_self_f_write (name s : string) :
  keeps_self (f_write (W := W) (client := client) name s).
Proof. intros st. reflexivity. Qed.

Lemma keeps_self_open_rb (name : string) :
  keeps_self (open_rb (W := W) (client := client) name).
Proof. intros st. unfold open_rb. now destruct (files st !! name). Qed.

Lemma keeps_self_getitem (resp : response) (k : string) :
  keeps_self (getitem (W := W) (client := client) resp k).
Proof. intros st. unfold getitem. now destruct (json.assoc k resp). Qed.

Hint Resolve keeps_self_ret keeps_self_raise keeps_self_bind keeps_self_try
  keeps_self_for_in keeps_self_attr keeps_self_print keeps_self_call
  keeps_self_open_w keeps_self_f_write keeps_self_open_rb keeps_self_getitem : frame.

Lemma keeps_self_create_input_jsonl : keeps_self create_input_jsonl.
Proof.
  unfold create_input_jsonl, upload, loop_body, write_line,
    call_list_obj_s3, call_get_object, call_put_object.
  auto 30 with frame.
Qed.

Lemma keeps_self_start_batch_inference_job : keeps_self start_batch_inference_job.
Proof.
  pose proof keeps_self_create_input_jsonl.
  unfold start_batch_inference_job, call_list_obj_s3, call_create_model_invocation_job.
  repeat (apply keeps_self_bind; [auto with frame | intros]).
  - destruct (not_ _); auto 10 with frame.
  - auto with frame.
Qed.

(** *** The runs *)

Lemma job_outcome_run (resp : result response) st st' (r : result string) :
  match resp with
  | Ok response =>
      (arn <- getitem response "jobArn" ;;
       print (msg_job arn) ;;
       getitem response "jobArn")%py st
  | Raise e => (st, Raise e)
  end = (st', r) ->
  job_outcome resp r /\ calls st' = calls st /\ files st' = files st.
Proof.
  destruct resp as [response | e]; cbn [job_outcome].
  - unfold bind, getitem, print, ret, raise.
    destruct (json.assoc "jobArn" response) as [arn |];
      intros [= <- <-]; auto.
  - intros [= <- <-]; auto.
Qed.

Lemma start_batch_inference_job_run st st' r :
  start_batch_inference_job st = (st', r) -> start_run st st' r.
Proof.
  unfold start_batch_inference_job.
  unfold bind at 1 2 3, attr at 1 2, call_list_obj_s3, call.
  destruct (list_obj_s3 _ _ _ (world st)) as [w1 [[| k ks] | e]] eqn:Hlist;
    cbn [not_].
  - (* no request file: it is built first *)
    unfold bind at 1. unfold bind at 1, print at 1.
    cbn [self world files stdout calls]. fold (after_check st w1).
    destruct (create_input_jsonl (after_check st w1)) as [st1 [[] | e]] eqn:Hc.
    + pose proof (keeps_self_create_input_jsonl (after_check st w1)) as Hself.
      rewrite Hc in Hself. cbn [fst after_check self] in Hself.
      apply create_input_jsonl_run in Hc.
      unfold bind at 1 2 3 4, attr, print at 1,
        call_create_model_invocation_job, call.
      cbn [self world files stdout calls]. rewrite Hself.
      destruct (create_model_invocation_job _ _ (world st1)) as [w2 jr].
      intros Hrun.
      assert (Hj := job_outcome_run jr _ _ _ ltac:(destruct jr; exact Hrun)).
      cbn [calls files] in Hj. destruct Hj as (Hj & Hcalls & Hfiles).
      now apply (start_built st _ _ w1 st1 jr).
    + apply create_input_jsonl_run in Hc. intros [= <- <-].
      now apply (start_build_raised st _ _ w1 e).
  - (* the request file is there *)
    unfold bind at 1, print at 1.
    unfold bind at 1 2 3 4, attr, print at 1,
      call_create_model_invocation_job, call.
    cbn [self world files stdout calls].
    destruct (create_model_invocation_job _ _ w1) as [w2 jr].
    intros Hrun.
    assert (Hj := job_outcome_run jr _ _ _ ltac:(destruct jr; exact Hrun)).
    cbn [calls files] in Hj. destruct Hj as (Hj & Hcalls & Hfiles).
    apply (start_reused st _ _ w1 k ks jr); auto.
    now rewrite Hcalls, <- app_assoc.
  - intros [= <- <-]. now apply (start_check_raised st _ _ w1 e).
Qed.

(** *** Reading the log of a run *)

Lemma new_calls_app st st' (evs : list (event client)) :
  calls st' = calls st ++ evs -> new_calls st st' = evs.
Proof. intros E. unfold new_calls. rewrite E. apply drop_app_length. Qed.

Lemma new_stdout_app st st' (out : list string) :
  stdout st' = stdout st ++ out -> new_stdout st st' = out.
Proof. intros E. unfold new_stdout. rewrite E. apply drop_app_length. Qed.

Lemma get_failed_got (c : client) (b : string) (ks : list string) (bodies : list bytes) :
  existsb get_failed (zip_with (got c b) ks bodies) = false.
Proof.
  revert bodies. induction ks as [| k ks IH]; intros [| body bodies]; cbn; auto.
Qed.

Lemma raised_got (c : client) (b : string) (ks : list string) (bodies : list bytes)
    (ev : event client) :
  In ev (zip_with (got c b) ks bodies) -> raised ev = None.
Proof.
  revert bodies. induction ks as [| k ks IH]; intros [| body bodies]; cbn;
    try tauto.
  intros [<- | Hin]; [reflexivity | eauto].
Qed.

Lemma is_create_job_got (c : client) (b : string) (ks : list string)
    (bodies : list bytes) :
  List.filter is_create_job (zip_with (got c b) ks bodies) = [].
Proof.
  revert bodies. induction ks as [| k ks IH]; intros [| body bodies]; cbn; auto.
Qed.

(** A run that listed the keys [ks] and in which no read failed has
    written and uploaded the records of [ks]. *)
Lemma create_run_written st st' r (w1 : W) (ks : list string) :
  create_run st st' r ->
  list_obj_s3 (s3_client (self st)) (bucket_name (self st)) (folder_name (self st))
    (world st) = (w1, Ok ks) ->
  existsb get_failed (new_calls st st') = false ->
  exists (bodies : list bytes) (pr : result unit),
    length bodies = length ks /\
    files st' !! "input.jsonl" =
      Some (request_file (creation_prompt (self st)) ks bodies) /\
    new_calls st st' =
      Ev_list_obj_s3 (s3_client (self st)) (bucket_name (self st))
        (folder_name (self st)) (Ok ks) ::
      zip_with (got (s3_client (self st)) (bucket_name (self st))) ks bodies ++
      [Ev_put_object (s3_client (self st)) (bucket_name (self st)) "input.jsonl"
         (request_file (creation_prompt (self st)) ks bodies) pr] /\
    exists printed,
      new_stdout st st' = printed /\
      upload_outcome (bucket_name (self st)) pr r printed.
Proof.
  intros [w e Hl _ _ _ _ | w ks' bodies k e Hl Hk _ Hc _ _
          | w ks' bodies pr Hl Hlen Hf Hc (printed & Ho & Hup)] Hlist Hok.
  - rewrite Hl in Hlist. discriminate.
  - rewrite (new_calls_app _ _ _ Hc) in Hok. exfalso.
    cbn [existsb get_failed] in Hok.
    rewrite existsb_app, get_failed_got in Hok. discriminate.
  - rewrite Hl in Hlist. injection Hlist as <- <-.
    exists bodies, pr. split; [exact Hlen |]. split.
    { rewrite Hf. apply lookup_insert_eq. }
    split; [now apply new_calls_app |].
    exists printed. split; [now apply new_stdout_app | exact Hup].
Qed.

(** Every run begins with the listing of the source folder. *)
Lemma create_run_lists_first st st' r :
  create_run st st' r ->
  exists lr rest,
    calls st' = calls st ++
      Ev_list_obj_s3 (s3_client (self st)) (bucket_name (self st))
        (folder_name (self st)) lr :: rest.
Proof. intros [? ? ? ? Hc | ? ? ? ? ? ? ? ? Hc | ? ? ? ? ? ? ? Hc]; eauto. Qed.

(** *** The records of a written file *)

Lemma records_of_length (p : string) (ks : list string) (bodies : list bytes) :
  length bodies = length ks -> length (records_of p ks bodies) = length ks.
Proof.
  intros Hlen. unfold records_of.
  rewrite length_zip_with, length_map. lia.
Qed.

Lemma records_of_lookup (p : string) (ks : list string) (bodies : list bytes)
    (i : nat) (k : string) :
  length bodies = length ks ->
  ks !! i = Some k ->
  exists body,
    bodies !! i = Some body /\
    records_of p ks bodies !! i = Some (json_obj_of p k (base64.b64encode body)).
Proof.
  intros Hlen Hk.
  destruct (lookup_lt_is_Some_2 bodies i) as [body Hb].
  { rewrite Hlen. eapply lookup_lt_Some, Hk. }
  exists body. split; [exact Hb |].
  unfold records_of. apply lookup_zip_with_Some.
  exists k, (base64.b64encode body). repeat split; [exact Hk |].
  now rewrite list_lookup_fmap, Hb.
Qed.

Lemma records_of_ids (p : string) (ks : list string) (bodies : list bytes) :
  length bodies = length ks ->
  List.map record_id (records_of p ks bodies) =
  List.map (fun k => Some (posixpath.basename k)) ks.
Proof.
  unfold records_of. revert bodies.
  induction ks as [| k ks IH]; intros [| body bodies] Hlen;
    try discriminate; [reflexivity |].
  cbn [List.map zip_with]. rewrite record_id_json_obj_of. f_equal.
  apply IH. now injection Hlen.
Qed.

(** *** The request file *)

(** C1. When the listing returns the keys [ks] and every read succeeds,
    [create_input_jsonl] leaves a file [input.jsonl] with exactly one
    line per listed key, in the order of the listing; line [i] is the
    JSON text of a record whose [recordId] is the base name of key [i]. *)
Theorem create_input_jsonl_one_line_per_image st st' r (w1 : W) (ks : list string) :
  create_input_jsonl st = (st', r) ->
  list_obj_s3 (s3_client (self st)) (bucket_name (self st)) (folder_name (self st))
    (world st) = (w1, Ok ks) ->
  existsb get_failed (new_calls st st') = false ->
  exists text : string,
    files st' !! "input.jsonl" = Some (encode_text text) /\
    length (lines text) = length ks /\
    forall (i : nat) (k : string),
      ks !! i = Some k ->
      exists rec,
        lines text !! i = Some (json.dumps rec) /\
        record_id rec = Some (posixpath.basename k).
Proof.
  intros Hrun Hlist Hok. apply create_input_jsonl_run in Hrun.
  destruct (create_run_written _ _ _ _ _ Hrun Hlist Hok)
    as (bodies & pr & Hlen & Hfile & _).
  exists (jsonl (records_of (creation_prompt (self st)) ks bodies)).
  split; [exact Hfile |]. rewrite json_facts.lines_jsonl. split.
  - now rewrite length_map, records_of_length.
  - intros i k Hk.
    destruct (records_of_lookup (creation_prompt (self st)) ks bodies i k Hlen Hk)
      as (body & _ & Hrec).
    eexists. split.
    + change (List.map json.dumps ?l) with (json.dumps <$> l).
      rewrite list_lookup_fmap, Hrec. reflexivity.
    + apply record_id_json_obj_of.
Qed.

(** C2. Under the same conditions every line of the file is the text of
    a record of the wire shape, with the configured prompt as [system];
    character by character it is [wire_line]. *)
Theorem create_input_jsonl_wire_shape st st' r (w1 : W) (ks : list string) :
  create_input_jsonl st = (st', r) ->
  list_obj_s3 (s3_client (self st)) (bucket_name (self st)) (folder_name (self st))
    (world st) = (w1, Ok ks) ->
  existsb get_failed (new_calls st st') = false ->
  exists text : string,
    files st' !! "input.jsonl" = Some (encode_text text) /\
    forall line : string,
      In line (lines text) ->
      exists (rec : value) (rid : string) (body : bytes),
        line = json.dumps rec /\
        wire_shape (creation_prompt (self st)) rec /\
        line = wire_line (creation_prompt (self st)) rid (base64.b64encode body).
Proof.
  intros Hrun Hlist Hok. apply create_input_jsonl_run in Hrun.
  destruct (create_run_written _ _ _ _ _ Hrun Hlist Hok)
    as (bodies & pr & Hlen & Hfile & _).
  exists (jsonl (records_of (creation_prompt (self st)) ks bodies)).
  split; [exact Hfile |]. rewrite json_facts.lines_jsonl.
  intros line Hin. apply in_map_iff in Hin. destruct Hin as (rec & <- & Hin).
  apply list_elem_of_In, list_elem_of_lookup in Hin. destruct Hin as (i & Hi).
  unfold records_of in Hi. apply lookup_zip_with_Some in Hi.
  destruct Hi as (k & d & -> & Hk & Hd).
  rewrite list_lookup_fmap in Hd.
  destruct (bodies !! i) as [body |]; [| discriminate].
  injection Hd as <-.
  exists (json_obj_of (creation_prompt (self st)) k (base64.b64encode body)),
    (posixpath.basename k), body.
  split; [reflexivity |]. split; [apply wire_shape_json_obj_of |].
  apply dumps_json_obj_of.
Qed.

(** C3. Under the same conditions, call [i+1] of the run is the read of
    key [i]; it returned octets [body], line [i] of the file is the text
    of a record, and decoding the [data] field of that record gives back
    [body]. *)
Theorem create_input_jsonl_data_round_trip st st' r (w1 : W) (ks : list string) :
  create_input_jsonl st = (st', r) ->
  list_obj_s3 (s3_client (self st)) (bucket_name (self st)) (folder_name (self st))
    (world st) = (w1, Ok ks) ->
  existsb get_failed (new_calls st st') = false ->
  exists text : string,
    files st' !! "input.jsonl" = Some (encode_text text) /\
    forall (i : nat) (k : string),
      ks !! i = Some k ->
      exists (body : bytes) (rec : value) (data : string),
        new_calls st st' !! S i =
          Some (got (s3_client (self st)) (bucket_name (self st)) k body) /\
        lines text !! i = Some (json.dumps rec) /\
        record_data rec = Some data /\
        base64.b64decode data = Some body.
Proof.
  intros Hrun Hlist Hok. apply create_input_jsonl_run in Hrun.
  destruct (create_run_written _ _ _ _ _ Hrun Hlist Hok)
    as (bodies & pr & Hlen & Hfile & Hcalls & _).
  exists (jsonl (records_of (creation_prompt (self st)) ks bodies)).
  split; [exact Hfile |]. rewrite json_facts.lines_jsonl.
  intros i k Hk.
  destruct (records_of_lookup (creation_prompt (self st)) ks bodies i k Hlen Hk)
    as (body & Hb & Hrec).
  exists body, (json_obj_of (creation_prompt (self st)) k (base64.b64encode body)),
    (base64.b64encode body).
  repeat split.
  - rewrite Hcalls. cbn [lookup list_lookup].
    apply lookup_app_l_Some, lookup_zip_with_Some. eauto.
  - change (List.map json.dumps ?l) with (json.dumps <$> l).
    now rewrite list_lookup_fmap, Hrec.
  - apply base64_facts.b64decode_b64encode.
Qed.

(** C8. Under the same conditions the file holds one record per listed
    key, whose identifiers are the base names of the keys in the order of
    the listing: they are pairwise distinct when the base names are, and
    two keys with the same base name give two lines with the same
    identifier. *)
Theorem create_input_jsonl_record_ids st st' r (w1 : W) (ks : list string) :
  create_input_jsonl st = (st', r) ->
  list_obj_s3 (s3_client (self st)) (bucket_name (self st)) (folder_name (self st))
    (world st) = (w1, Ok ks) ->
  existsb get_failed (new_calls st st') = false ->
  exists (text : string) (recs : list value),
    files st' !! "input.jsonl" = Some (encode_text text) /\
    lines text = List.map json.dumps recs /\
    length recs = length ks /\
    List.map record_id recs = List.map (fun k => Some (posixpath.basename k)) ks /\
    (NoDup (List.map posixpath.basename ks) -> NoDup (List.map record_id recs)) /\
    (forall (i j : nat) (ki kj : string),
       i <> j -> ks !! i = Some ki -> ks !! j = Some kj ->
       posixpath.basename ki = posixpath.basename kj ->
       exists ri rj,
         recs !! i = Some ri /\ recs !! j = Some rj /\
         record_id ri = Some (posixpath.basename ki) /\
         record_id rj = Some (posixpath.basename ki)).
Proof.
  intros Hrun Hlist Hok. apply create_input_jsonl_run in Hrun.
  destruct (create_run_written _ _ _ _ _ Hrun Hlist Hok)
    as (bodies & pr & Hlen & Hfile & _).
  set (p := creation_prompt (self st)) in *.
  exists (jsonl (records_of p ks bodies)), (records_of p ks bodies).
  split; [exact Hfile |]. split; [apply json_facts.lines_jsonl |].
  split; [now apply records_of_length |].
  split; [now apply records_of_ids |]. split.
  - intros Hnd. rewrite records_of_ids by exact Hlen.
    rewrite <- (map_map posixpath.basename Some).
    apply (NoDup_fmap_2 Some). exact Hnd.
  - intros i j ki kj _ Hi Hj Heq.
    destruct (records_of_lookup p ks bodies i ki Hlen Hi) as (bi & _ & Hri).
    destruct (records_of_lookup p ks bodies j kj Hlen Hj) as (bj & _ & Hrj).
    do 2 eexists. split; [exact Hri |]. split; [exact Hrj |].
    rewrite !record_id_json_obj_of. now rewrite Heq.
Qed.

(** *** The job submission *)

(** C4. The calls of [start_batch_inference_job] begin with the check for
    [input.jsonl].  The next call is the listing of the source folder,
    the first thing [create_input_jsonl] does, exactly when the check
    returned the empty list.  When the check returned a non-empty list
    the only other call is the job creation: the source folder is neither
    listed nor read, and nothing is uploaded. *)
Theorem start_builds_iff_request_file_missing st st' r (w1 : W)
    (lr : result (list string)) :
  start_batch_inference_job st = (st', r) ->
  list_obj_s3 (s3_client (self st)) (bucket_name (self st)) "input.jsonl"
    (world st) = (w1, lr) ->
  (exists rest,
     new_calls st st' =
       Ev_list_obj_s3 (s3_client (self st)) (bucket_name (self st)) "input.jsonl" lr ::
       rest) /\
  ((exists ev lr2 rest,
      new_calls st st' =
        ev :: Ev_list_obj_s3 (s3_client (self st)) (bucket_name (self st))
                (folder_name (self st)) lr2 :: rest)
   <-> lr = Ok []) /\
  (forall k ks, lr = Ok (k :: ks) ->
     exists jr,
       new_calls st st' =
         [Ev_list_obj_s3 (s3_client (self st)) (bucket_name (self st)) "input.jsonl" lr;
          Ev_create_model_invocation_job (bedrock_client (self st))
            (job_request_of (self st)) jr] /\
       call_count is_list_obj_s3 (new_calls st st') = 1 /\
       call_count is_get_object (new_calls st st') = 0 /\
       call_count is_put_object (new_calls st st') = 0).
Proof.
  intros Hrun Hlist. apply start_batch_inference_job_run in Hrun.
  destruct Hrun as [w e Hl -> Hc | w k ks jr Hl Hc Hj
                    | w e Hl Hcr -> | w st1 jr Hl Hcr Hc Hf Hj];
    rewrite Hl in Hlist; injection Hlist as <- <-.
  - rewrite (new_calls_app _ _ _ Hc). split; [eauto |]. split.
    + split; [intros (? & ? & ? & [=]) | discriminate].
    + discriminate.
  - rewrite (new_calls_app _ _ _ Hc). split; [eauto |]. split.
    + split; [intros (? & ? & ? & [=]) | discriminate].
    + intros k' ks' _. exists jr. repeat split.
  - apply create_run_lists_first in Hcr. destruct Hcr as (lr2 & rest & Hc).
    cbn [after_check calls self] in Hc. rewrite <- app_assoc in Hc.
    rewrite (new_calls_app _ _ _ Hc). cbn [app]. split; [eauto |]. split.
    + split; [reflexivity | eauto].
    + discriminate.
  - apply create_run_lists_first in Hcr. destruct Hcr as (lr2 & rest & Hc1).
    cbn [after_check calls self] in Hc1.
    rewrite Hc1, <- !app_assoc in Hc.
    rewrite (new_calls_app _ _ _ Hc). cbn [app]. split; [eauto |]. split.
    + split; [reflexivity | eauto].
    + discriminate.
Qed.

(** The log of a run of [create_input_jsonl] holds no job creation. *)
Lemma create_run_no_job st st' r :
  create_run st st' r ->
  exists evs, calls st' = calls st ++ evs /\ List.filter is_create_job evs = [].
Proof.
  intros [? ? ? ? Hc | ? ? ? ? ? ? ? ? Hc | ? ? ? ? ? ? ? Hc];
    eexists; (split; [exact Hc |]); cbn [List.filter is_list_obj_s3 is_create_job];
    rewrite ?List.filter_app, ?is_create_job_got; reflexivity.
Qed.

(** The shape of the log of [start_batch_inference_job]: some calls that
    are not job creations, then at most one job creation, with the
    arguments taken from the configuration. *)
Lemma start_run_log st st' (r : result string) :
  start_run st st' r ->
  exists evs,
    List.filter is_create_job evs = [] /\
    ((new_calls st st' = evs /\ exists e, r = Raise e) \/
     (exists jr,
        new_calls st st' =
          evs ++ [Ev_create_model_invocation_job (bedrock_client (self st))
                    (job_request_of (self st)) jr] /\
        job_outcome jr r)).
Proof.
  intros [w e Hl -> Hc | w k ks jr Hl Hc Hj
          | w e Hl Hcr -> | w st1 jr Hl Hcr Hc Hf Hj].
  - eexists. split; [| left; split; [exact (new_calls_app _ _ _ Hc) | eauto]].
    reflexivity.
  - exists [Ev_list_obj_s3 (s3_client (self st)) (bucket_name (self st))
              "input.jsonl" (Ok (k :: ks))].
    split; [reflexivity |]. right. exists jr. split; [| exact Hj].
    now apply new_calls_app.
  - apply create_run_no_job in Hcr. destruct Hcr as (evs & Hc & Hno).
    cbn [after_check calls] in Hc. rewrite <- app_assoc in Hc.
    eexists. split; [| left; split; [exact (new_calls_app _ _ _ Hc) | eauto]].
    cbn [List.filter is_create_job app]. exact Hno.
  - apply create_run_no_job in Hcr. destruct Hcr as (evs & Hc1 & Hno).
    cbn [after_check calls] in Hc1.
    rewrite Hc1, <- !app_assoc in Hc.
    exists (Ev_list_obj_s3 (s3_client (self st)) (bucket_name (self st))
              "input.jsonl" (Ok []) :: evs).
    split; [exact Hno |]. right. exists jr. split; [| exact Hj].
    apply new_calls_app. exact Hc.
Qed.

(** C5. [start_batch_inference_job] never creates more than one job, and
    a job it creates has the name, the model and the role of the
    configuration, the input [s3://{bucket_name}/input.jsonl] in the format
    JSONL and the output [s3://{bucket_name}/{output_folder}].  It creates
    exactly one job unless an exception ended the method before; in
    particular whenever it returns, and then what it returns is the field
    [jobArn] of the response. *)
Theorem start_creates_one_job st st' (r : result string) :
  start_batch_inference_job st = (st', r) ->
  let req := job_request_of (self st) in
  (jobName req = job_name (self st) /\
   modelId req = model_id (self st) /\
   roleArn req = role_arn (self st) /\
   at_path ["s3InputDataConfig"; "s3Uri"] (inputDataConfig req) =
     Some (JStr ("s3://" +:+ bucket_name (self st) +:+ "/input.jsonl")) /\
   at_path ["s3InputDataConfig"; "s3InputFormat"] (inputDataConfig req) =
     Some (JStr "JSONL") /\
   at_path ["s3OutputDataConfig"; "s3Uri"] (outputDataConfig req) =
     Some (JStr ("s3://" +:+ bucket_name (self st) +:+ "/" +:+ output_folder (self st)))) /\
  (forall ev, In ev (new_calls st st') -> is_create_job ev = true ->
     exists jr,
       ev = Ev_create_model_invocation_job (bedrock_client (self st)) req jr /\
       last (new_calls st st') = Some ev /\
       job_outcome jr r) /\
  (call_count is_create_job (new_calls st st') = 1 \/
   (call_count is_create_job (new_calls st st') = 0 /\ exists e, r = Raise e)) /\
  (forall arn, r = Ok arn ->
     call_count is_create_job (new_calls st st') = 1 /\
     exists resp,
       last (new_calls st st') =
         Some (Ev_create_model_invocation_job (bedrock_client (self st)) req (Ok resp)) /\
       json.assoc "jobArn" resp = Some arn).
Proof.
  intros Hrun req. split; [repeat split |].
  apply start_batch_inference_job_run, start_run_log in Hrun.
  destruct Hrun as (evs & Hno & [(Hc & e & ->) | (jr & Hc & Hj)]); rewrite Hc.
  - split; [| split].
    + intros ev Hin Hev. exfalso.
      assert (Hf : In ev (List.filter is_create_job evs))
        by (apply filter_In; auto).
      rewrite Hno in Hf. destruct Hf.
    + right. unfold call_count. rewrite Hno. eauto.
    + discriminate.
  - assert (Hcount : call_count is_create_job
              (evs ++ [Ev_create_model_invocation_job (bedrock_client (self st))
                         req jr]) = 1).
    { unfold call_count. rewrite List.filter_app, Hno. reflexivity. }
    split; [| split].
    + intros ev Hin Hev. apply in_app_iff in Hin. destruct Hin as [Hin | Hin].
      * exfalso.
        assert (Hf : In ev (List.filter is_create_job evs))
          by (apply filter_In; auto).
        rewrite Hno in Hf. destruct Hf.
      * destruct Hin as [<- | []]. exists jr.
        split; [reflexivity |]. split; [apply last_snoc | exact Hj].
    + left. exact Hcount.
    + intros arn ->. split; [exact Hcount |].
      destruct jr as [resp | e]; cbn [job_outcome] in Hj; [| discriminate].
      exists resp. split; [apply last_snoc |].
      destruct (json.assoc "jobArn" resp); congruence.
Qed.

(** *** Exceptions *)

Lemma in_got (c : client) (b : string) (ks : list string) (bodies : list bytes)
    (ev : event client) :
  In ev (zip_with (got c b) ks bodies) -> exists k body, ev = got c b k body.
Proof.
  revert bodies. induction ks as [| k ks IH]; intros [| body bodies]; cbn;
    try tauto.
  intros [<- | Hin]; eauto.
Qed.

(** A failed upload whose exception is an [Exception] is printed and the
    method returns. *)
Lemma create_run_put_failed st st' r (c : client) (b k : string) (body : bytes)
    (e : exn) :
  create_run st st' r ->
  In (Ev_put_object c b k body (Raise e)) (new_calls st st') ->
  is_Exception e = true ->
  r = Ok tt /\ last (new_stdout st st') = Some (exn_str e).
Proof.
  intros [w e0 Hl _ Hc _ _ | w ks bodies k0 e0 Hl Hk _ Hc _ _
          | w ks bodies pr Hl Hlen Hf Hc (printed & Ho & Hup)] Hin He;
    rewrite (new_calls_app _ _ _ Hc) in Hin.
  - destruct Hin as [[=] | []].
  - destruct Hin as [[=] | Hin]. apply in_app_iff in Hin.
    destruct Hin as [Hin | [[=] | []]].
    apply in_got in Hin. destruct Hin as (? & ? & [=]).
  - destruct Hin as [[=] | Hin]. apply in_app_iff in Hin.
    destruct Hin as [Hin | [Hin | []]].
    { apply in_got in Hin. destruct Hin as (? & ? & [=]). }
    injection Hin as _ _ _ _ ->.
    unfold upload_outcome in Hup. rewrite He in Hup. destruct Hup as (-> & ->).
    split; [reflexivity |]. now rewrite (new_stdout_app _ _ _ Ho).
Qed.

(** A failed listing or read ends the method with its exception. *)
Lemma create_run_raised st st' r (ev : event client) (e : exn) :
  create_run st st' r ->
  In ev (new_calls st st') ->
  raised ev = Some e ->
  r = Raise e.
Proof.
  intros [w e0 Hl -> Hc _ _ | w ks bodies k0 e0 Hl Hk -> Hc _ _
          | w ks bodies pr Hl Hlen Hf Hc _] Hin He;
    rewrite (new_calls_app _ _ _ Hc) in Hin.
  - destruct Hin as [<- | []]. cbn in He. congruence.
  - destruct Hin as [<- | Hin]; [discriminate |]. apply in_app_iff in Hin.
    destruct Hin as [Hin | [<- | []]].
    + apply raised_got in Hin. congruence.
    + cbn in He. congruence.
  - destruct Hin as [<- | Hin]; [discriminate |]. apply in_app_iff in Hin.
    destruct Hin as [Hin | [<- | []]].
    + apply raised_got in Hin. congruence.
    + discriminate.
Qed.

Lemma create_run_raised_last st st' r (ev : event client) (e : exn) :
  create_run st st' r ->
  In ev (new_calls st st') ->
  raised ev = Some e ->
  last (new_calls st st') = Some ev.
Proof.
  intros [w e0 Hl -> Hc _ _ | w ks bodies k0 e0 Hl Hk -> Hc _ _
          | w ks bodies pr Hl Hlen Hf Hc _] Hin He;
    rewrite (new_calls_app _ _ _ Hc) in *.
  - now destruct Hin as [<- | []].
  - rewrite app_comm_cons, last_snoc.
    destruct Hin as [<- | Hin]; [discriminate |]. apply in_app_iff in Hin.
    destruct Hin as [Hin | [<- | []]]; [| reflexivity].
    apply raised_got in Hin. congruence.
  - destruct Hin as [<- | Hin]; [discriminate |]. apply in_app_iff in Hin.
    destruct Hin as [Hin | [<- | []]]; [| discriminate].
    apply raised_got in Hin. congruence.
Qed.

(** The calls of a run of [start_batch_inference_job] that built the
    request file: the check, then the calls of [create_input_jsonl]. *)
Lemma new_calls_after_check st st1 (w1 : W) r :
  create_run (after_check st w1) st1 r ->
  new_calls st st1 =
    Ev_list_obj_s3 (s3_client (self st)) (bucket_name (self st)) "input.jsonl" (Ok []) ::
    new_calls (after_check st w1) st1.
Proof.
  intros Hcr. apply create_run_lists_first in Hcr.
  destruct Hcr as (lr & rest & Hc).
  rewrite (new_calls_app _ _ _ Hc).
  cbn [after_check calls] in Hc. rewrite <- app_assoc in Hc.
  now rewrite (new_calls_app _ _ _ Hc).
Qed.

Lemma new_calls_snoc st st1 st' (ev : event client) :
  (exists evs, calls st1 = calls st ++ evs) ->
  calls st' = calls st1 ++ [ev] ->
  new_calls st st' = new_calls st st1 ++ [ev].
Proof.
  intros (evs & Hc1) Hc.
  rewrite (new_calls_app _ _ _ Hc1).
  apply new_calls_app. now rewrite Hc, Hc1, <- app_assoc.
Qed.

Lemma create_run_extends st st' r :
  create_run st st' r -> exists evs, calls st' = calls st ++ evs.
Proof. intros (lr & rest & Hc)%create_run_lists_first. eauto. Qed.

Lemma after_check_extends st st1 (w1 : W) r :
  create_run (after_check st w1) st1 r -> exists evs, calls st1 = calls st ++ evs.
Proof.
  intros (evs & Hc)%create_run_extends. cbn [after_check calls] in Hc.
  rewrite <- app_assoc in Hc. eauto.
Qed.

Lemma ends_run_got (c : client) (b : string) (ks : list string) (bodies : list bytes) :
  existsb ends_run (zip_with (got c b) ks bodies) = false.
Proof.
  revert bodies. induction ks as [| k ks IH]; intros [| body bodies]; cbn; auto.
Qed.

(** A run of [create_input_jsonl] that ends with an exception holds a call
    that ends the run. *)
Lemma create_run_raise_ends st st' (e : exn) :
  create_run st st' (Raise e) -> existsb ends_run (new_calls st st') = true.
Proof.
  intros [w e0 Hl _ Hc _ _ | w ks bodies k0 e0 Hl Hk _ Hc _ _
          | w ks bodies pr Hl Hlen Hf Hc (printed & Ho & Hup)];
    rewrite (new_calls_app _ _ _ Hc).
  - reflexivity.
  - cbn [existsb ends_run orb]. rewrite existsb_app, ends_run_got. reflexivity.
  - cbn [existsb ends_run orb]. rewrite existsb_app, ends_run_got.
    unfold upload_outcome in Hup. destruct pr as [[] | e1].
    + destruct Hup as [[=] _].
    + destruct (is_Exception e1) eqn:He1; [destruct Hup as [[=] _] |].
      cbn. now rewrite He1.
Qed.

(** An upload that raises something outside [Exception] ends the method
    with it. *)
Lemma create_run_put_uncaught st st' r (c : client) (b k : string) (body : bytes)
    (e : exn) :
  create_run st st' r ->
  In (Ev_put_object c b k body (Raise e)) (new_calls st st') ->
  is_Exception e = false ->
  r = Raise e.
Proof.
  intros [w e0 Hl _ Hc _ _ | w ks bodies k0 e0 Hl Hk _ Hc _ _
          | w ks bodies pr Hl Hlen Hf Hc (printed & Ho & Hup)] Hin He;
    rewrite (new_calls_app _ _ _ Hc) in Hin.
  - destruct Hin as [[=] | []].
  - destruct Hin as [[=] | Hin]. apply in_app_iff in Hin.
    destruct Hin as [Hin | [[=] | []]].
    apply in_got in Hin. destruct Hin as (? & ? & [=]).
  - destruct Hin as [[=] | Hin]. apply in_app_iff in Hin.
    destruct Hin as [Hin | [Hin | []]].
    { apply in_got in Hin. destruct Hin as (? & ? & [=]). }
    injection Hin as _ _ _ _ ->.
    unfold upload_outcome in Hup. rewrite He in Hup. now destruct Hup.
Qed.

(** C6. When the upload raises an exception (an instance of [Exception],
    as [except Exception] has it), [create_input_jsonl] returns normally;
    the last thing it printed is the text of the exception.  A run of
    [start_batch_inference_job] in which the upload failed so still ends
    with the call of the job creation; more generally every run ends with
    the call of the job creation unless a listing or a read failed or the
    upload raised something outside [Exception].  An exception outside
    [Exception] raised by the upload is not caught: [create_input_jsonl]
    ends with that very exception, and so does
    [start_batch_inference_job], which then creates no job. *)
Theorem upload_failure_is_swallowed :
  (forall st st' r (c : client) (b k : string) (body : bytes) (e : exn),
     create_input_jsonl st = (st', r) ->
     In (Ev_put_object c b k body (Raise e)) (new_calls st st') ->
     is_Exception e = true ->
     r = Ok tt /\ last (new_stdout st st') = Some (exn_str e)) /\
  (forall st st' (r : result string) (c : client) (b k : string) (body : bytes)
          (e : exn),
     start_batch_inference_job st = (st', r) ->
     In (Ev_put_object c b k body (Raise e)) (new_calls st st') ->
     is_Exception e = true ->
     exists jr,
       last (new_calls st st') =
         Some (Ev_create_model_invocation_job (bedrock_client (self st))
                 (job_request_of (self st)) jr) /\
       job_outcome jr r) /\
  (forall st st' (r : result string),
     start_batch_inference_job st = (st', r) ->
     existsb ends_run (new_calls st st') = false ->
     exists jr,
       last (new_calls st st') =
         Some (Ev_create_model_invocation_job (bedrock_client (self st))
                 (job_request_of (self st)) jr) /\
       job_outcome jr r) /\
  (forall st st' r (c : client) (b k : string) (body : bytes) (e : exn),
     create_input_jsonl st = (st', r) ->
     In (Ev_put_object c b k body (Raise e)) (new_calls st st') ->
     is_Exception e = false ->
     r = Raise e) /\
  (forall st st' (r : result string) (c : client) (b k : string) (body : bytes)
          (e : exn),
     start_batch_inference_job st = (st', r) ->
     In (Ev_put_object c b k body (Raise e)) (new_calls st st') ->
     is_Exception e = false ->
     r = Raise e /\ call_count is_create_job (new_calls st st') = 0).
Proof.
  split; [| split; [| split; [| split]]].
  - intros st st' r c b k body e Hrun. apply create_input_jsonl_run in Hrun.
    now apply create_run_put_failed.
  - intros st st' r c b k body e Hrun Hin He.
    apply start_batch_inference_job_run in Hrun.
    destruct Hrun as [w e0 Hl -> Hc | w k0 ks jr Hl Hc Hj
                      | w e0 Hl Hcr -> | w st1 jr Hl Hcr Hc Hf Hj].
    + rewrite (new_calls_app _ _ _ Hc) in Hin. destruct Hin as [[=] | []].
    + rewrite (new_calls_app _ _ _ Hc) in Hin.
      destruct Hin as [[=] | [[=] | []]].
    + exfalso. rewrite (new_calls_after_check _ _ _ _ Hcr) in Hin.
      destruct Hin as [[=] | Hin].
      destruct (create_run_put_failed _ _ _ _ _ _ _ _ Hcr Hin He) as [[=] _].
    + exists jr. split; [| exact Hj].
      rewrite (new_calls_snoc st st1 st' _ (after_check_extends _ _ _ _ Hcr) Hc).
      apply last_snoc.
  - intros st st' r Hrun Hok.
    apply start_batch_inference_job_run in Hrun.
    destruct Hrun as [w e0 Hl -> Hc | w k0 ks jr Hl Hc Hj
                      | w e0 Hl Hcr -> | w st1 jr Hl Hcr Hc Hf Hj].
    + rewrite (new_calls_app _ _ _ Hc) in Hok. discriminate.
    + exists jr. split; [| exact Hj]. now rewrite (new_calls_app _ _ _ Hc).
    + exfalso. rewrite (new_calls_after_check _ _ _ _ Hcr) in Hok.
      cbn [existsb ends_run orb] in Hok.
      now rewrite (create_run_raise_ends _ _ _ Hcr) in Hok.
    + exists jr. split; [| exact Hj].
      rewrite (new_calls_snoc st st1 st' _ (after_check_extends _ _ _ _ Hcr) Hc).
      apply last_snoc.
  - intros st st' r c b k body e Hrun. apply create_input_jsonl_run in Hrun.
    now apply create_run_put_uncaught.
  - intros st st' r c b k body e Hrun Hin He.
    apply start_batch_inference_job_run in Hrun.
    destruct Hrun as [w e0 Hl -> Hc | w k0 ks jr Hl Hc Hj
                      | w e0 Hl Hcr -> | w st1 jr Hl Hcr Hc Hf Hj].
    + rewrite (new_calls_app _ _ _ Hc) in Hin. destruct Hin as [[=] | []].
    + rewrite (new_calls_app _ _ _ Hc) in Hin.
      destruct Hin as [[=] | [[=] | []]].
    + rewrite (new_calls_after_check _ _ _ _ Hcr) in *.
      destruct Hin as [[=] | Hin].
      pose proof (create_run_put_uncaught _ _ _ _ _ _ _ _ Hcr Hin He) as [= ->].
      split; [reflexivity |].
      destruct (create_run_no_job _ _ _ Hcr) as (evs & Hc & Hno).
      rewrite (new_calls_app _ _ _ Hc). unfold call_count.
      cbn [List.filter is_create_job]. now rewrite Hno.
    + exfalso.
      rewrite (new_calls_snoc st st1 st' _ (after_check_extends _ _ _ _ Hcr) Hc),
        (new_calls_after_check _ _ _ _ Hcr) in Hin.
      apply in_app_iff in Hin. destruct Hin as [[[=] | Hin] | [[=] | []]].
      now pose proof (create_run_put_uncaught _ _ _ _ _ _ _ _ Hcr Hin He).
Qed.

(** C7. An exception raised by the listing of the source folder or by
    the read of an image ends [create_input_jsonl] with that exception;
    so it does in [start_batch_inference_job], and so does there an
    exception raised by the check or by the job creation. *)
Theorem store_and_job_errors_propagate :
  (forall st st' r (ev : event client) (e : exn),
     create_input_jsonl st = (st', r) ->
     In ev (new_calls st st') ->
     raised ev = Some e ->
     r = Raise e /\ last (new_calls st st') = Some ev) /\
  (forall st st' (r : result string) (ev : event client) (e : exn),
     start_batch_inference_job st = (st', r) ->
     In ev (new_calls st st') ->
     raised ev = Some e ->
     r = Raise e /\ last (new_calls st st') = Some ev).
Proof.
  split.
  - intros st st' r ev e Hrun Hin He. apply create_input_jsonl_run in Hrun.
    split; [now apply (create_run_raised st st' r ev) |].
    now apply (create_run_raised_last st st' r ev e).
  - intros st st' r ev e Hrun Hin He.
    apply start_batch_inference_job_run in Hrun.
    destruct Hrun as [w e0 Hl -> Hc | w k0 ks jr Hl Hc Hj
                      | w e0 Hl Hcr -> | w st1 jr Hl Hcr Hc Hf Hj].
    + rewrite (new_calls_app _ _ _ Hc) in *.
      destruct Hin as [<- | []]. cbn in He. split; [congruence | reflexivity].
    + rewrite (new_calls_app _ _ _ Hc) in *.
      destruct Hin as [<- | [<- | []]]; [discriminate |].
      destruct jr as [resp | e1]; [discriminate |].
      cbn in He, Hj. split; [congruence | reflexivity].
    + rewrite (new_calls_after_check _ _ _ _ Hcr) in *.
      destruct Hin as [<- | Hin]; [discriminate |].
      split.
      { pose proof (create_run_raised _ _ _ ev e Hcr Hin He) as [= ->].
        reflexivity. }
      rewrite last_cons.
      now rewrite (create_run_raised_last _ _ _ ev e Hcr Hin He).
    + rewrite (new_calls_snoc st st1 st' _ (after_check_extends _ _ _ _ Hcr) Hc) in *.
      apply in_app_iff in Hin. destruct Hin as [Hin | [<- | []]].
      * exfalso. rewrite (new_calls_after_check _ _ _ _ Hcr) in Hin.
        destruct Hin as [<- | Hin]; [discriminate |].
        now pose proof (create_run_raised _ _ _ ev e Hcr Hin He).
      * destruct jr as [resp | e1]; [discriminate |].
        cbn in He, Hj. split; [congruence | apply last_snoc].
Qed.

(** *** The configuration *)

(** C9. Neither method changes an attribute set by the constructor: the
    object, with its seven strings and its two client handles, is the
    same after the call as before, whatever the collaborators do and
    whether the call returns or raises. *)
Theorem configuration_is_read_only st :
  self (fst (create_input_jsonl st)) = self st /\
  self (fst (start_batch_inference_job st)) = self st.
Proof.
  split.
  - apply keeps_self_create_input_jsonl.
  - apply keeps_self_start_batch_inference_job.
Qed.

(** *** The empty source folder *)



End Run.

(** * The methods on the in-memory bucket *)

(** The scenario of two images [a.jpg] and [b.jpg] under [images/] and no
    request file: two lines, with the identifiers [a.jpg] and [b.jpg]; the
    file is uploaded, the job is created on [s3://bucket/input.jsonl] and
    [s3://bucket/out/], and the handle of the response is returned. *)
Example two_images_submitted :
  let '(st', r) := start_batch_inference_job (Mock.start Mock.two_images) in
  r = Ok "arn:job/1" /\
  option_map string_of_list_byte (files st' !! "input.jsonl") =
    Some (wire_line "Describe the image." "a.jpg" "TWFu" +:+ String LF EmptyString +:+
          wire_line "Describe the image." "b.jpg" "TQ==" +:+ String LF EmptyString) /\
  List.map (@raised unit) (calls st') = [None; None; None; None; None; None] /\
  last (calls st') =
    Some (Ev_create_model_invocation_job tt
            {| jobName := "job-1";
               modelId := "model-1";
               inputDataConfig :=
                 JDict [("s3InputDataConfig",
                         JDict [("s3InputFormat", JStr "JSONL");
                                ("s3Uri", JStr "s3://bucket/input.jsonl")])];
               outputDataConfig :=
                 JDict [("s3OutputDataConfig",
                         JDict [("s3Uri", JStr "s3://bucket/out/")])];
               roleArn := "arn:role/batch" |}
            (Ok [("jobArn", "arn:job/1")])).
Proof. vm_compute. repeat split. Qed.

(** The request file is already there: the check, then the job. *)
Example request_file_reused :
  calls (fst (start_batch_inference_job (Mock.start Mock.with_request_file))) =
    [Ev_list_obj_s3 tt "bucket" "input.jsonl" (Ok ["input.jsonl"]);
     Ev_create_model_invocation_job tt (job_request_of Mock.orchestrator)
       Mock.arn_response].
Proof. vm_compute. reflexivity. Qed.

(** An exception outside [Exception] raised by the upload is not caught. *)
Example upload_interrupt_propagates :
  snd (create_input_jsonl (Mock.start (Mock.failing_put Mock.interrupt))) =
  Raise Mock.interrupt.
Proof. vm_compute. reflexivity. Qed.

Example basename_examples :
  posixpath.basename "images/x/a.jpg" = "a.jpg" /\
  posixpath.basename "a.jpg" = "a.jpg" /\
  posixpath.basename "images/" = EmptyString.
Proof. repeat split. Qed.

Example b64encode_examples :
  base64.b64encode [x4d; x61; x6e] = "TWFu" /\
  base64.b64encode [x4d; x61] = "TWE=" /\
  base64.b64encode [x4d] = "TQ==" /\
  base64.b64decode "TWFu" = Some [x4d; x61; x6e].
Proof. repeat split. Qed.

(** ** Instances of the theorems *)

Lemma create_input_jsonl_one_line_per_image_witness :
  let st := Mock.start Mock.two_images in
  let st' := fst (create_input_jsonl st) in
  exists text : string,
    files st' !! "input.jsonl" = Some (encode_text text) /\
    length (lines text) = 2 /\
    forall (i : nat) (k : string),
      ["images/a.jpg"; "images/b.jpg"] !! i = Some k ->
      exists rec,
        lines text !! i = Some (json.dumps rec) /\
        record_id rec = Some (posixpath.basename k).
Proof.
  intros st st'.
  apply (create_input_jsonl_one_line_per_image st st' (snd (create_input_jsonl st))
           Mock.two_images ["images/a.jpg"; "images/b.jpg"]).
  - apply surjective_pairing.
  - reflexivity.
  - vm_compute. reflexivity.
Defined.

Lemma create_input_jsonl_wire_shape_witness :
  let st := Mock.start Mock.two_images in
  let st' := fst (create_input_jsonl st) in
  exists text : string,
    files st' !! "input.jsonl" = Some (encode_text text) /\
    forall line : string,
      In line (lines text) ->
      exists (rec : value) (rid : string) (body : bytes),
        line = json.dumps rec /\
        wire_shape "Describe the image." rec /\
        line = wire_line "Describe the image." rid (base64.b64encode body).
Proof.
  intros st st'.
  apply (create_input_jsonl_wire_shape st st' (snd (create_input_jsonl st))
           Mock.two_images ["images/a.jpg"; "images/b.jpg"]).
  - apply surjective_pairing.
  - reflexivity.
  - vm_compute. reflexivity.
Defined.

Lemma create_input_jsonl_data_round_trip_witness :
  let st := Mock.start Mock.two_images in
  let st' := fst (create_input_jsonl st) in
  exists text : string,
    files st' !! "input.jsonl" = Some (encode_text text) /\
    forall (i : nat) (k : string),
      ["images/a.jpg"; "images/b.jpg"] !! i = Some k ->
      exists (body : bytes) (rec : value) (data : string),
        new_calls st st' !! S i = Some (got tt "bucket" k body) /\
        lines text !! i = Some (json.dumps rec) /\
        record_data rec = Some data /\
        base64.b64decode data = Some body.
Proof.
  intros st st'.
  apply (create_input_jsonl_data_round_trip st st' (snd (create_input_jsonl st))
           Mock.two_images ["images/a.jpg"; "images/b.jpg"]).
  - apply surjective_pairing.
  - reflexivity.
  - vm_compute. reflexivity.
Defined.

Lemma create_input_jsonl_record_ids_witness :
  let st := Mock.start Mock.same_name in
  let st' := fst (create_input_jsonl st) in
  exists (text : string) (recs : list value),
    files st' !! "input.jsonl" = Some (encode_text text) /\
    lines text = List.map json.dumps recs /\
    length recs = 2 /\
    List.map record_id recs = [Some "a.jpg"; Some "a.jpg"].
Proof.
  intros st st'.
  destruct (create_input_jsonl_record_ids st st' (snd (create_input_jsonl st))
              Mock.same_name ["images/x/a.jpg"; "images/y/a.jpg"])
    as (text & recs & Hfile & Hlines & Hlen & Hids & _).
  - apply surjective_pairing.
  - reflexivity.
  - vm_compute. reflexivity.
  - exists text, recs. auto.
Defined.

Lemma start_builds_iff_request_file_missing_witness :
  let st := Mock.start Mock.with_request_file in
  let st' := fst (start_batch_inference_job st) in
  exists jr,
    new_calls st st' =
      [Ev_list_obj_s3 tt "bucket" "input.jsonl" (Ok ["input.jsonl"]);
       Ev_create_model_invocation_job tt (job_request_of Mock.orchestrator) jr] /\
    call_count is_list_obj_s3 (new_calls st st') = 1 /\
    call_count is_get_object (new_calls st st') = 0 /\
    call_count is_put_object (new_calls st st') = 0.
Proof.
  intros st st'.
  destruct (start_builds_iff_request_file_missing st st'
              (snd (start_batch_inference_job st)) Mock.with_request_file
              (Ok ["input.jsonl"]))
    as (_ & _ & Hdirect).
  - apply surjective_pairing.
  - reflexivity.
  - apply (Hdirect "input.jsonl" []). reflexivity.
Defined.

Lemma start_creates_one_job_witness :
  let st := Mock.start Mock.two_images in
  let st' := fst (start_batch_inference_job st) in
  call_count is_create_job (new_calls st st') = 1 /\
  exists resp,
    last (new_calls st st') =
      Some (Ev_create_model_invocation_job tt (job_request_of Mock.orchestrator)
              (Ok resp)) /\
    json.assoc "jobArn" resp = Some "arn:job/1".
Proof.
  intros st st'.
  destruct (start_creates_one_job st st' (Ok "arn:job/1")) as (_ & _ & _ & Hret).
  - vm_compute. reflexivity.
  - apply (Hret "arn:job/1"). reflexivity.
Defined.

Lemma upload_failure_is_swallowed_witness :
  let st := Mock.start (Mock.failing_put Mock.boom) in
  let si := Mock.start (Mock.failing_put Mock.interrupt) in
  ((snd (create_input_jsonl st) = Ok tt /\
    last (new_stdout st (fst (create_input_jsonl st))) = Some "boom") /\
   exists jr,
     last (new_calls st (fst (start_batch_inference_job st))) =
       Some (Ev_create_model_invocation_job tt (job_request_of Mock.orchestrator) jr) /\
     job_outcome jr (snd (start_batch_inference_job st))) /\
  snd (create_input_jsonl si) = Raise Mock.interrupt /\
  (snd (start_batch_inference_job si) = Raise Mock.interrupt /\
   call_count is_create_job (new_calls si (fst (start_batch_inference_job si))) = 0).
Proof.
  intros st si. split; [| split].
  3: { apply (proj2 (proj2 (proj2 (proj2 upload_failure_is_swallowed))) si
                (fst (start_batch_inference_job si))
                (snd (start_batch_inference_job si)) tt "bucket" "input.jsonl"
                (request_file "Describe the image." ["images/a.jpg"; "images/b.jpg"]
                   [[x4d; x61; x6e]; [x4d]])
                Mock.interrupt).
       - apply surjective_pairing.
       - vm_compute. do 4 right. left. reflexivity.
       - reflexivity. }
  2: { apply (proj1 (proj2 (proj2 (proj2 upload_failure_is_swallowed))) si
                (fst (create_input_jsonl si)) (snd (create_input_jsonl si)) tt
                "bucket" "input.jsonl"
                (request_file "Describe the image." ["images/a.jpg"; "images/b.jpg"]
                   [[x4d; x61; x6e]; [x4d]])
                Mock.interrupt).
       - apply surjective_pairing.
       - vm_compute. do 3 right. left. reflexivity.
       - reflexivity. }
  split.
  - apply (proj1 upload_failure_is_swallowed st (fst (create_input_jsonl st))
             (snd (create_input_jsonl st)) tt "bucket" "input.jsonl"
             (request_file "Describe the image." ["images/a.jpg"; "images/b.jpg"]
                [[x4d; x61; x6e]; [x4d]])
             Mock.boom).
    + apply surjective_pairing.
    + vm_compute. do 3 right. left. reflexivity.
    + reflexivity.
  - apply (proj1 (proj2 upload_failure_is_swallowed) st
             (fst (start_batch_inference_job st))
             (snd (start_batch_inference_job st)) tt "bucket" "input.jsonl"
             (request_file "Describe the image." ["images/a.jpg"; "images/b.jpg"]
                [[x4d; x61; x6e]; [x4d]])
             Mock.boom).
    + apply surjective_pairing.
    + vm_compute. do 4 right. left. reflexivity.
    + reflexivity.
Defined.

(** Not every raised object is swallowed: an interrupt raised by the upload
    (outside [Exception]) leaves [create_input_jsonl] as an exception, so
    the statement without the condition [is_Exception e = true] is false. *)
Lemma upload_failure_not_always_swallowed :
  ~ (forall (st st' : state Mock.world unit) (r : result unit) (c : unit)
            (b k : string) (body : bytes) (e : exn),
       create_input_jsonl st = (st', r) ->
       In (Ev_put_object c b k body (Raise e)) (new_calls st st') ->
       r = Ok tt).
Proof.
  intros Hall.
  pose (st := Mock.start (Mock.failing_put Mock.interrupt)).
  assert (Hr : snd (create_input_jsonl st) = Ok tt).
  { apply (Hall st (fst (create_input_jsonl st)) (snd (create_input_jsonl st)) tt
             "bucket" "input.jsonl"
             (request_file "Describe the image." ["images/a.jpg"; "images/b.jpg"]
                [[x4d; x61; x6e]; [x4d]])
             Mock.interrupt).
    - apply surjective_pairing.
    - vm_compute. do 3 right. left. reflexivity. }
  vm_compute in Hr. discriminate Hr.
Qed.

Lemma store_and_job_errors_propagate_witness :
  (snd (create_input_jsonl (Mock.start (Mock.failing_list Mock.boom))) = Raise Mock.boom /\
   snd (create_input_jsonl (Mock.start (Mock.failing_get Mock.interrupt))) =
     Raise Mock.interrupt) /\
  snd (start_batch_inference_job (Mock.start (Mock.failing_job Mock.boom))) =
    Raise Mock.boom.
Proof.
  split; [split |].
  - apply (proj1 store_and_job_errors_propagate
             (Mock.start (Mock.failing_list Mock.boom))
             (fst (create_input_jsonl (Mock.start (Mock.failing_list Mock.boom))))
             _ (Ev_list_obj_s3 tt "bucket" "images/" (Raise Mock.boom)) Mock.boom).
    + apply surjective_pairing.
    + vm_compute. left. reflexivity.
    + reflexivity.
  - apply (proj1 store_and_job_errors_propagate
             (Mock.start (Mock.failing_get Mock.interrupt))
             (fst (create_input_jsonl (Mock.start (Mock.failing_get Mock.interrupt))))
             _ (Ev_get_object tt "bucket" "images/a.jpg" (Raise Mock.interrupt))
             Mock.interrupt).
    + apply surjective_pairing.
    + vm_compute. right. left. reflexivity.
    + reflexivity.
  - apply (proj2 store_and_job_errors_propagate
             (Mock.start (Mock.failing_job Mock.boom))
             (fst (start_batch_inference_job (Mock.start (Mock.failing_job Mock.boom))))
             _ (Ev_create_model_invocation_job tt (job_request_of Mock.orchestrator)
                  (Raise Mock.boom))
             Mock.boom).
    + apply surjective_pairing.
    + vm_compute. right. left. reflexivity.
    + reflexivity.
Defined.


(** * Further properties *)

(** ** Reading back what [json.dumps] wrote *)

Module json_read_facts.
Import json json_read.

Lemma read_escape_char (c : ascii) (tail : string) :
  read_string (escape_char c +:+ tail) =
  match read_string tail with
  | Some (t, tl) => Some (String c t, tl)
  | None => None
  end.
Proof.
  destruct c as [[] [] [] [] [] [] [] []]; reflexivity.
Qed.

Lemma read_escape (s rest : string) :
  read_string (escape s +:+ String DQUOTE rest) = Some (s, rest).
Proof.
  induction s as [| c s IH]; [reflexivity |].
  cbn [escape]. rewrite app_assoc_s, read_escape_char, IH. reflexivity.
Qed.

Lemma strip_prefix_app (p s : string) : strip_prefix p (p +:+ s) = Some s.
Proof.
  induction p as [| a p IH]; [reflexivity |].
  rewrite append_cons. cbn [strip_prefix]. now rewrite Ascii.eqb_refl.
Qed.

Lemma encode_app (s rest : string) :
  encode_basestring_ascii s +:+ rest = String DQUOTE (escape s +:+ String DQUOTE rest).
Proof.
  unfold encode_basestring_ascii. rewrite append_cons, app_assoc_s. reflexivity.
Qed.

(** The text of a record, cut at its three strings. *)
Lemma dumps_json_obj_of_cut (p k d : string) :
  dumps (json_obj_of p k d) =
  before_id +:+ escape (posixpath.basename k) +:+ String DQUOTE
    (before_system +:+ escape p +:+ String DQUOTE
       (before_data +:+ escape d +:+ String DQUOTE after_data)).
Proof.
  unfold json_obj_of. cbn [dumps List.map join fst snd].
  rewrite !app_assoc_s.
  rewrite (encode_app (posixpath.basename k)), (encode_app p), (encode_app d).
  reflexivity.
Qed.

Lemma read_line_dumps (p k d : string) :
  read_line (dumps (json_obj_of p k d)) = Some (posixpath.basename k, p, d).
Proof.
  rewrite dumps_json_obj_of_cut. unfold read_line.
  rewrite strip_prefix_app, read_escape.
  rewrite strip_prefix_app, read_escape.
  rewrite strip_prefix_app, read_escape.
  now rewrite String.eqb_refl.
Qed.

End json_read_facts.

(** ** Base names *)

Module posixpath_facts.
Import posixpath.

Lemma rfind_lower (c : ascii) (s : string) : (-1 <= rfind c s)%Z.
Proof.
  induction s as [| a s IH]; cbn [rfind]; [lia |].
  destruct (0 <=? rfind c s)%Z eqn:E; [lia |].
  destruct (Ascii.eqb a c); lia.
Qed.

Lemma rfind_absent (s : string) :
  (rfind "/" s <? 0)%Z = string_forall no_slash s.
Proof.
  induction s as [| a s IH]; [reflexivity |].
  cbn [rfind string_forall]. rewrite <- IH. pose proof (rfind_lower "/" s).
  unfold no_slash.
  destruct (0 <=? rfind "/" s)%Z eqn:E.
  - destruct (rfind "/" s <? 0)%Z eqn:E'; [lia |].
    rewrite andb_false_r. lia.
  - destruct (rfind "/" s <? 0)%Z eqn:E'; [| lia].
    rewrite andb_true_r. now destruct (Ascii.eqb a "/").
Qed.

Lemma rfind_present (x y : string) : (0 <=? rfind "/" (x +:+ String "/" y))%Z = true.
Proof.
  induction x as [| a x IH].
  - rewrite append_nil. cbn [rfind]. pose proof (rfind_lower "/" y).
    destruct (0 <=? rfind "/" y)%Z eqn:E; [lia | reflexivity].
  - rewrite append_cons. cbn [rfind]. rewrite IH. apply Z.leb_le.
    apply Z.leb_le in IH. lia.
Qed.

(** [basename], one character at a time. *)
Lemma basename_cons (a : ascii) (s : string) :
  basename (String a s) =
  if (0 <=? rfind "/" s)%Z then basename s
  else if Ascii.eqb a "/" then s else String a s.
Proof.
  unfold basename. cbn [rfind]. pose proof (rfind_lower "/" s).
  destruct (0 <=? rfind "/" s)%Z eqn:E.
  - apply Z.leb_le in E.
    replace (Z.to_nat (rfind "/" s + 1 + 1)) with (S (Z.to_nat (rfind "/" s + 1)))
      by lia.
    reflexivity.
  - destruct (Ascii.eqb a "/"); reflexivity.
Qed.

Lemma basename_no_slash (p : string) : string_forall no_slash (basename p) = true.
Proof.
  induction p as [| a p IH]; [reflexivity |].
  rewrite basename_cons.
  destruct (0 <=? rfind "/" p)%Z eqn:E; [exact IH |].
  assert (Hp : string_forall no_slash p = true).
  { rewrite <- rfind_absent. apply Z.ltb_lt. apply Z.leb_gt in E. exact E. }
  destruct (Ascii.eqb a "/") eqn:Ea; [exact Hp |].
  cbn [string_forall]. unfold no_slash at 1. now rewrite Ea, Hp.
Qed.

Lemma basename_plain (k : string) :
  string_forall no_slash k = true -> basename k = k.
Proof.
  intros Hk. rewrite <- rfind_absent in Hk. apply Z.ltb_lt in Hk.
  pose proof (rfind_lower "/" k). unfold basename.
  replace (rfind "/" k + 1)%Z with 0%Z by lia. reflexivity.
Qed.

Lemma basename_join (d n : string) :
  string_forall no_slash n = true -> basename (d +:+ String "/" n) = n.
Proof.
  intros Hn. induction d as [| a d IH].
  - rewrite append_nil, basename_cons.
    rewrite <- rfind_absent in Hn. apply Z.ltb_lt in Hn.
    destruct (0 <=? rfind "/" n)%Z eqn:E; [apply Z.leb_le in E; lia | reflexivity].
  - rewrite append_cons, basename_cons, rfind_present. exact IH.
Qed.

End posixpath_facts.

(** ** The size of an encoding and the octets of a text *)

Lemma b64encode_length (bs : bytes) :
  String.length (base64.b64encode bs) = 4 * ((length bs + 2) / 3).
Proof.
  induction bs as [| b0 | b0 b1 | b0 b1 b2 rest IH] using base64_facts.bytes_ind3;
    try reflexivity.
  cbn [base64.b64encode base64.sextets String.length length]. rewrite IH.
  replace (S (S (S (length rest))) + 2) with ((length rest + 2) + 1 * 3) by lia.
  rewrite Nat.div_add by lia. lia.
Qed.

Lemma b64encode_inj (a b : bytes) :
  base64.b64encode a = base64.b64encode b -> a = b.
Proof.
  intros E. apply (f_equal base64.b64decode) in E.
  rewrite !base64_facts.b64decode_b64encode in E. now injection E.
Qed.

Lemma jsonl_byte_of_ascii (c : ascii) :
  jsonl_byte (byte_of_ascii c) = Ascii.eqb c LF || printable c.
Proof. destruct c as [[] [] [] [] [] [] [] []]; reflexivity. Qed.

Lemma is_LF_of_ascii (c : ascii) :
  Byte.eqb x0a (byte_of_ascii c) = Ascii.eqb c LF.
Proof. destruct c as [[] [] [] [] [] [] [] []]; reflexivity. Qed.

Lemma encode_text_cons (c : ascii) (s : string) :
  encode_text (String c s) = byte_of_ascii c :: encode_text s.
Proof. reflexivity. Qed.

Lemma count_LF_app (a b : bytes) : count_LF (a ++ b) = count_LF a + count_LF b.
Proof. unfold count_LF. now rewrite List.filter_app, length_app. Qed.

Lemma count_LF_none (s : string) :
  string_forall not_LF s = true -> count_LF (encode_text s) = 0.
Proof.
  induction s as [| c s IH]; [reflexivity |].
  cbn [string_forall]. intros [Hc Hs]%andb_true_iff.
  rewrite encode_text_cons. unfold count_LF in *. cbn [List.filter].
  rewrite is_LF_of_ascii. unfold not_LF in Hc. apply negb_true_iff in Hc.
  rewrite Hc. auto.
Qed.

Lemma count_LF_jsonl (recs : list value) :
  count_LF (encode_text (jsonl recs)) = length recs.
Proof.
  induction recs as [| r recs IH]; [reflexivity |].
  cbn [jsonl length]. rewrite append_cons, append_nil.
  rewrite encode_text_app, count_LF_app, encode_text_cons.
  rewrite count_LF_none by apply json_facts.dumps_no_LF.
  change (byte_of_ascii LF) with x0a.
  change (count_LF (x0a :: ?l)) with (S (count_LF l)). now rewrite IH.
Qed.

Lemma jsonl_bytes_printable (s : string) :
  string_forall printable s = true -> forallb jsonl_byte (encode_text s) = true.
Proof.
  induction s as [| c s IH]; [reflexivity |].
  cbn [string_forall]. intros [Hc Hs]%andb_true_iff.
  rewrite encode_text_cons. cbn [forallb].
  now rewrite jsonl_byte_of_ascii, Hc, orb_true_r, IH.
Qed.

Lemma jsonl_bytes (recs : list value) :
  forallb jsonl_byte (encode_text (jsonl recs)) = true.
Proof.
  induction recs as [| r recs IH]; [reflexivity |].
  cbn [jsonl]. rewrite append_cons, append_nil.
  rewrite encode_text_app, forallb_app, encode_text_cons. cbn [forallb].
  rewrite jsonl_bytes_printable by apply json_facts.dumps_printable.
  now rewrite IH.
Qed.

Lemma jsonl_ends_with_LF (recs : list value) :
  recs <> [] -> last (encode_text (jsonl recs)) = Some x0a.
Proof.
  induction recs as [| r recs IH]; [congruence |]. intros _.
  cbn [jsonl]. rewrite append_cons, append_nil.
  rewrite encode_text_app, encode_text_cons.
  change (byte_of_ascii LF) with x0a.
  rewrite last_app, last_cons.
  destruct recs as [| r' recs]; [reflexivity |].
  now rewrite IH.
Qed.

(** ** The local files *)

Section Coverage.

Context {W client : Type} `{Services W client}.
Local Open Scope py_scope.
Implicit Types st : state W client.

Lemma keeps_other_files_ret {A} (a : A) :
  keeps_other_files (ret (W := W) (client := client) a).
Proof. intros st name _. reflexivity. Qed.

Lemma keeps_other_files_raise {A} (e : exn) :
  keeps_other_files (raise (W := W) (client := client) (A := A) e).
Proof. intros st name _. reflexivity. Qed.

Lemma keeps_other_files_bind {A B} (m : M W client A) (k : A -> M W client B) :
  keeps_other_files m -> (forall a, keeps_other_files (k a)) ->
  keeps_other_files (bind m k).
Proof.
  intros Hm Hk st name Hne. unfold bind. specialize (Hm st name Hne).
  destruct (m st) as [st1 [a | e]]; cbn [fst] in *; [| exact Hm].
  now rewrite Hk.
Qed.

Lemma keeps_other_files_try (body : M W client unit) (handler : exn -> M W client unit) :
  keeps_other_files body -> (forall e, keeps_other_files (handler e)) ->
  keeps_other_files (try_except_Exception body handler).
Proof.
  intros Hm Hk st name Hne. unfold try_except_Exception. specialize (Hm st name Hne).
  destruct (body st) as [st1 [[] | e]]; cbn [fst] in *; [exact Hm |].
  destruct (is_Exception e); [now rewrite Hk | exact Hm].
Qed.

Lemma keeps_other_files_for_in {A S} (xs : list A) (body : A -> S -> M W client S) :
  (forall x acc, keeps_other_files (body x acc)) ->
  forall acc, keeps_other_files (for_in xs body acc).
Proof.
  intros Hbody. induction xs as [| x xs IH]; intros acc; cbn [for_in].
  - apply keeps_other_files_ret.
  - apply keeps_other_files_bind; [apply Hbody | exact IH].
Qed.

Lemma keeps_other_files_attr {A} (f : BatchInference client -> A) :
  keeps_other_files (attr (W := W) f).
Proof. intros st name _. reflexivity. Qed.

Lemma keeps_other_files_print (s : string) :
  keeps_other_files (print (W := W) (client := client) s).
Proof. intros st name _. reflexivity. Qed.

Lemma keeps_other_files_call {A} (op : W -> W * result A)
    (log : result A -> event client) :
  keeps_other_files (call op log).
Proof. intros st name _. unfold call. now destruct (op (world st)). Qed.

Lemma keeps_other_files_open_w :
  keeps_other_files (open_w (W := W) (client := client) "input.jsonl").
Proof. intros st name Hne. cbn. now apply lookup_insert_ne. Qed.

Lemma keeps_other_files_f_write (s : string) :
  keeps_other_files (f_write (W := W) (client := client) "input.jsonl" s).
Proof. intros st name Hne. cbn. now apply lookup_insert_ne. Qed.

Lemma keeps_other_files_open_rb (name : string) :
  keeps_other_files (open_rb (W := W) (client := client) name).
Proof. intros st n _. unfold open_rb. now destruct (files st !! name). Qed.

Lemma keeps_other_files_getitem (resp : response) (k : string) :
  keeps_other_files (getitem (W := W) (client := client) resp k).
Proof. intros st name _. unfold getitem. now destruct (json.assoc k resp). Qed.

Hint Resolve keeps_other_files_ret keeps_other_files_raise keeps_other_files_bind
  keeps_other_files_try keeps_other_files_for_in keeps_other_files_attr
  keeps_other_files_print keeps_other_files_call keeps_other_files_open_w
  keeps_other_files_f_write keeps_other_files_open_rb keeps_other_files_getitem
  : files_frame.




(** ** The calls of [create_input_jsonl] *)

Lemma filter_put_got (c : client) (b : string) (ks : list string) (bodies : list bytes) :
  List.filter is_put_object (zip_with (got c b) ks bodies) = [].
Proof.
  revert bodies. induction ks as [| k ks IH]; intros [| body bodies]; cbn; auto.
Qed.

Lemma filter_list_got (c : client) (b : string) (ks : list string) (bodies : list bytes) :
  List.filter is_list_obj_s3 (zip_with (got c b) ks bodies) = [].
Proof.
  revert bodies. induction ks as [| k ks IH]; intros [| body bodies]; cbn; auto.
Qed.

Lemma filter_get_got (c : client) (b : string) (ks : list string) (bodies : list bytes) :
  List.filter is_get_object (zip_with (got c b) ks bodies) =
  zip_with (got c b) ks bodies.
Proof.
  revert bodies. induction ks as [| k ks IH]; intros [| body bodies]; cbn; auto.
  now rewrite IH.
Qed.

Lemma read_keys_app (l1 l2 : list (event client)) :
  read_keys (l1 ++ l2) = read_keys l1 ++ read_keys l2.
Proof. unfold read_keys. apply flat_map_app. Qed.

Lemma read_keys_got (c : client) (b : string) (ks : list string) (bodies : list bytes) :
  read_keys (zip_with (got c b) ks bodies) = take (length bodies) ks.
Proof.
  revert bodies. induction ks as [| k ks IH]; intros [| body bodies]; cbn; auto.
  now rewrite <- IH.
Qed.

(** The one upload of a run. *)
Lemma create_run_put st st' r (c : client) (b k : string) (body : bytes)
    (pr : result unit) :
  create_run st st' r ->
  In (Ev_put_object c b k body pr) (new_calls st st') ->
  c = s3_client (self st) /\ b = bucket_name (self st) /\ k = "input.jsonl" /\
  files st' !! "input.jsonl" = Some body /\
  call_count is_put_object (new_calls st st') = 1 /\
  last (new_calls st st') = Some (Ev_put_object c b k body pr).
Proof.
  intros Hrun Hin.
  destruct Hrun as [w e0 Hl _ Hc _ _ | w ks bodies k0 e0 Hl Hk _ Hc _ _
                    | w ks bodies pr0 Hl Hlen Hf Hc _];
    rewrite (new_calls_app _ _ _ Hc) in *.
  - destruct Hin as [[=] | []].
  - destruct Hin as [[=] | Hin]. apply in_app_iff in Hin.
    destruct Hin as [Hin | [[=] | []]].
    apply in_got in Hin. destruct Hin as (? & ? & [=]).
  - destruct Hin as [[=] | Hin]. apply in_app_iff in Hin.
    destruct Hin as [Hin | [Hin | []]].
    { apply in_got in Hin. destruct Hin as (? & ? & [=]). }
    injection Hin as <- <- <- <- <-. repeat split.
    + rewrite Hf. apply lookup_insert_eq.
    + unfold call_count. cbn [List.filter is_put_object].
      now rewrite List.filter_app, filter_put_got.
    + rewrite app_comm_cons. apply last_snoc.
Qed.

(** X1. Whenever [create_input_jsonl] calls [put_object], it is the last
    call of the run and the only upload; the bucket is the configured one,
    the key is [input.jsonl], and the body is octet for octet the content
    of the local file [input.jsonl] that the run leaves behind. *)
Theorem upload_is_the_local_file st st' r (c : client) (b k : string)
    (body : bytes) (pr : result unit) :
  create_input_jsonl st = (st', r) ->
  In (Ev_put_object c b k body pr) (new_calls st st') ->
  c = s3_client (self st) /\ b = bucket_name (self st) /\ k = "input.jsonl" /\
  files st' !! "input.jsonl" = Some body /\
  call_count is_put_object (new_calls st st') = 1 /\
  last (new_calls st st') = Some (Ev_put_object c b k body pr).
Proof.
  intros Hrun Hin. apply create_input_jsonl_run in Hrun.
  exact (create_run_put st st' r c b k body pr Hrun Hin).
Qed.

(** X2. When the listing of the source folder or the read of an image
    raises, [create_input_jsonl] has touched no local file (an earlier
    [input.jsonl] is neither truncated nor replaced), has printed nothing
    and has uploaded nothing. *)
Theorem failed_fetch_leaves_no_trace st st' r (ev : event client) (e : exn) :
  create_input_jsonl st = (st', r) ->
  In ev (new_calls st st') ->
  raised ev = Some e ->
  files st' = files st /\ stdout st' = stdout st /\
  call_count is_put_object (new_calls st st') = 0.
Proof.
  intros Hrun Hin He. apply create_input_jsonl_run in Hrun.
  destruct Hrun as [w e0 Hl _ Hc Hf Ho | w ks bodies k0 e0 Hl Hk _ Hc Hf Ho
                    | w ks bodies pr0 Hl Hlen Hf Hc _];
    rewrite (new_calls_app _ _ _ Hc) in *.
  - repeat split; assumption.
  - repeat split; try assumption.
    unfold call_count. cbn [List.filter is_put_object].
    now rewrite List.filter_app, filter_put_got.
  - exfalso. destruct Hin as [<- | Hin]; [discriminate |].
    apply in_app_iff in Hin. destruct Hin as [Hin | [<- | []]]; [| discriminate].
    apply raised_got in Hin. congruence.
Qed.

(** X4. For prompts and image names over the characters of the model
    (code points 0..255) and the POSIX text-mode write (no newline
    translation), the body of every upload of [create_input_jsonl] is plain
    ASCII: each octet is a line feed or a character from space to tilde,
    also when the prompt or a name holds quotes, backslashes, control
    characters or characters from 128 to 255.  It has exactly as many line
    feeds as images were read, and when it is not empty it ends with a line
    feed. *)
Theorem uploaded_body_is_ascii_lines st st' r (c : client) (b k : string)
    (body : bytes) (pr : result unit) :
  create_input_jsonl st = (st', r) ->
  In (Ev_put_object c b k body pr) (new_calls st st') ->
  forallb jsonl_byte body = true /\
  count_LF body = call_count is_get_object (new_calls st st') /\
  (body = [] \/ last body = Some x0a).
Proof.
  intros Hrun Hin. apply create_input_jsonl_run in Hrun.
  destruct Hrun as [w e0 Hl _ Hc _ _ | w ks bodies k0 e0 Hl Hk _ Hc _ _
                    | w ks bodies pr0 Hl Hlen Hf Hc _];
    rewrite (new_calls_app _ _ _ Hc) in *.
  - destruct Hin as [[=] | []].
  - destruct Hin as [[=] | Hin]. apply in_app_iff in Hin.
    destruct Hin as [Hin | [[=] | []]].
    apply in_got in Hin. destruct Hin as (? & ? & [=]).
  - destruct Hin as [[=] | Hin]. apply in_app_iff in Hin.
    destruct Hin as [Hin | [Hin | []]].
    { apply in_got in Hin. destruct Hin as (? & ? & [=]). }
    injection Hin as _ _ _ <- _. unfold request_file. repeat split.
    + apply jsonl_bytes.
    + rewrite count_LF_jsonl, records_of_length by exact Hlen.
      unfold call_count. cbn [List.filter is_get_object].
      rewrite List.filter_app, filter_get_got. cbn [List.filter is_get_object].
      rewrite app_nil_r, length_zip_with. lia.
    + destruct ks as [| k1 ks]; [left | right].
      * destruct bodies; [reflexivity | discriminate].
      * apply jsonl_ends_with_LF. destruct bodies; [discriminate |].
        unfold records_of. cbn [List.map zip_with]. discriminate.
Qed.

(** X5. [create_input_jsonl] lists the source folder once and reads the
    listed keys in the order of the listing, each at most once, stopping at
    the first read that raises: the keys read are the first keys of the
    listing, all of them when the method returns.  It never creates a job. *)
Theorem reads_follow_the_listing st st' r (c : client) (b d : string)
    (ks : list string) :
  create_input_jsonl st = (st', r) ->
  In (Ev_list_obj_s3 c b d (Ok ks)) (new_calls st st') ->
  read_keys (new_calls st st') =
    take (call_count is_get_object (new_calls st st')) ks /\
  (r = Ok tt -> read_keys (new_calls st st') = ks) /\
  call_count is_list_obj_s3 (new_calls st st') = 1 /\
  call_count is_create_job (new_calls st st') = 0.
Proof.
  intros Hrun Hin. apply create_input_jsonl_run in Hrun.
  destruct Hrun as [w e0 Hl _ Hc _ _ | w ks' bodies k0 e0 Hl Hk -> Hc _ _
                    | w ks' bodies pr0 Hl Hlen Hf Hc _];
    rewrite (new_calls_app _ _ _ Hc) in *.
  - destruct Hin as [[=] | []].
  - assert (ks' = ks) as ->.
    { destruct Hin as [[=] | Hin]; [congruence |]. apply in_app_iff in Hin.
      destruct Hin as [Hin | [[=] | []]].
      apply in_got in Hin. destruct Hin as (? & ? & [=]). }
    unfold call_count. cbn [List.filter is_get_object is_list_obj_s3 is_create_job].
    rewrite !List.filter_app, filter_get_got, filter_list_got, is_create_job_got.
    cbn [List.filter is_get_object is_list_obj_s3 is_create_job app length].
    change (read_keys (?x :: ?l)) with (read_keys [x] ++ read_keys l).
    rewrite read_keys_app, read_keys_got. cbn [read_keys flat_map app].
    assert (Hlt : length bodies < length ks) by (eapply lookup_lt_Some, Hk).
    rewrite length_app, length_zip_with. cbn [length].
    replace (length ks `min` length bodies + 1) with (S (length bodies)) by lia.
    rewrite (take_S_r _ _ _ Hk). repeat split. discriminate.
  - assert (ks' = ks) as ->.
    { destruct Hin as [[=] | Hin]; [congruence |]. apply in_app_iff in Hin.
      destruct Hin as [Hin | [[=] | []]].
      apply in_got in Hin. destruct Hin as (? & ? & [=]). }
    unfold call_count. cbn [List.filter is_get_object is_list_obj_s3 is_create_job].
    rewrite !List.filter_app, filter_get_got, filter_list_got, is_create_job_got.
    cbn [List.filter is_get_object is_list_obj_s3 is_create_job app length].
    change (read_keys (?x :: ?l)) with (read_keys [x] ++ read_keys l).
    rewrite read_keys_app, read_keys_got. cbn [read_keys flat_map app].
    rewrite !app_nil_r, length_zip_with, Hlen.
    replace (length ks `min` length ks) with (length ks) by lia.
    rewrite firstn_all. repeat split.
Qed.


(** ** The lines of the file, read back *)

Lemma line_id_records_of (p : string) (ks : list string) (bodies : list bytes) :
  length bodies = length ks ->
  List.map line_id (List.map json.dumps (records_of p ks bodies)) =
  List.map (fun k => Some (posixpath.basename k)) ks.
Proof.
  unfold records_of. revert bodies.
  induction ks as [| k ks IH]; intros [| body bodies] Hlen;
    try discriminate; [reflexivity |].
  cbn [List.map zip_with]. unfold line_id at 1.
  rewrite json_read_facts.read_line_dumps. f_equal.
  apply IH. now injection Hlen.
Qed.

(** X6. Under the conditions of a complete run (the listing returned
    [ks] and no read failed), line [i] of [input.jsonl] reads back, through
    the escapes of [json.dumps], as the base name of key [i], the
    configured prompt and a data string that decodes to the octets read for
    key [i]; nothing of the three is lost or altered by the serialization.
    Keys with pairwise distinct base names give pairwise distinct lines. *)
Theorem lines_read_back st st' r (w1 : W) (ks : list string) :
  create_input_jsonl st = (st', r) ->
  list_obj_s3 (s3_client (self st)) (bucket_name (self st)) (folder_name (self st))
    (world st) = (w1, Ok ks) ->
  existsb get_failed (new_calls st st') = false ->
  exists text : string,
    files st' !! "input.jsonl" = Some (encode_text text) /\
    (forall (i : nat) (k : string),
       ks !! i = Some k ->
       exists (line data : string) (body : bytes),
         lines text !! i = Some line /\
         new_calls st st' !! S i =
           Some (got (s3_client (self st)) (bucket_name (self st)) k body) /\
         json_read.read_line line =
           Some (posixpath.basename k, creation_prompt (self st), data) /\
         base64.b64decode data = Some body) /\
    (NoDup (List.map posixpath.basename ks) -> NoDup (lines text)).
Proof.
  intros Hrun Hlist Hok. apply create_input_jsonl_run in Hrun.
  destruct (create_run_written _ _ _ _ _ Hrun Hlist Hok)
    as (bodies & pr & Hlen & Hfile & Hcalls & _).
  set (p := creation_prompt (self st)) in *.
  exists (jsonl (records_of p ks bodies)).
  split; [exact Hfile |]. rewrite json_facts.lines_jsonl. split.
  - intros i k Hk.
    destruct (records_of_lookup p ks bodies i k Hlen Hk) as (body & Hb & Hrec).
    exists (json.dumps (json_obj_of p k (base64.b64encode body))),
      (base64.b64encode body), body.
    repeat split.
    + change (List.map json.dumps ?l) with (json.dumps <$> l).
      now rewrite list_lookup_fmap, Hrec.
    + rewrite Hcalls. cbn [lookup list_lookup].
      apply lookup_app_l_Some, lookup_zip_with_Some. eauto.
    + apply json_read_facts.read_line_dumps.
    + apply base64_facts.b64decode_b64encode.
  - intros Hnd.
    apply (NoDup_fmap_1 line_id).
    change (line_id <$> ?l) with (List.map line_id l).
    rewrite line_id_records_of by exact Hlen.
    rewrite <- (map_map posixpath.basename Some).
    apply (NoDup_fmap_2 Some). exact Hnd.
Qed.

(** ** The job submission, statement by statement *)

Lemma start_split :
  start_batch_inference_job =
  (c <- attr s3_client ;;
   b <- attr bucket_name ;;
   input_jsonl_yes_no <- call_list_obj_s3 c b "input.jsonl" ;;
   (if not_ input_jsonl_yes_no
    then print msg_missing ;; create_input_jsonl
    else print msg_exists) ;;
   submit).
Proof. reflexivity. Qed.

Lemma submit_run st :
  submit st =
  let bc := bedrock_client (self st) in
  let req := job_request_of (self st) in
  let '(w', jr) := create_model_invocation_job bc req (world st) in
  let log := calls st ++ [Ev_create_model_invocation_job bc req jr] in
  match jr with
  | Raise e =>
      (mk_state (self st) w' (files st) (stdout st ++ [msg_starting]) log, Raise e)
  | Ok resp =>
      match json.assoc "jobArn" resp with
      | Some arn =>
          (mk_state (self st) w' (files st)
             ((stdout st ++ [msg_starting]) ++ [msg_job arn]) log, Ok arn)
      | None =>
          (mk_state (self st) w' (files st) (stdout st ++ [msg_starting]) log,
           Raise (KeyError "jobArn"))
      end
  end.
Proof.
  unfold submit, bind, attr, print, call_create_model_invocation_job, call.
  cbn [self world files stdout calls].
  destruct (create_model_invocation_job _ _ (world st)) as [w' [resp | e]];
    [| reflexivity].
  unfold getitem, ret, raise.
  destruct (json.assoc "jobArn" resp); reflexivity.
Qed.

(** [start_batch_inference_job], by the outcome of the check. *)
Lemma start_unfold st :
  start_batch_inference_job st =
  let c := s3_client (self st) in
  let b := bucket_name (self st) in
  match list_obj_s3 c b "input.jsonl" (world st) with
  | (w1, Raise e) =>
      (mk_state (self st) w1 (files st) (stdout st)
         (calls st ++ [Ev_list_obj_s3 c b "input.jsonl" (Raise e)]),
       Raise e)
  | (w1, Ok []) =>
      match create_input_jsonl (after_check st w1) with
      | (st1, Ok _) => submit st1
      | (st1, Raise e) => (st1, Raise e)
      end
  | (w1, Ok (k :: ks)) =>
      submit
        (mk_state (self st) w1 (files st) (stdout st ++ [msg_exists])
           (calls st ++ [Ev_list_obj_s3 c b "input.jsonl" (Ok (k :: ks))]))
  end.
Proof.
  rewrite start_split.
  unfold bind at 1 2 3 4, attr at 1 2, call_list_obj_s3, call.
  cbn zeta.
  destruct (list_obj_s3 _ _ _ (world st)) as [w1 [[| k ks] | e]];
    cbn [not_]; reflexivity.
Qed.

Lemma create_run_no_job_call st st' r (bc : client) (req : job_request)
    (jr : result response) :
  create_run st st' r ->
  ~ In (Ev_create_model_invocation_job bc req jr) (new_calls st st').
Proof.
  intros (evs & Hc & Hno)%create_run_no_job Hin.
  rewrite (new_calls_app _ _ _ Hc) in Hin.
  assert (Hf : In (Ev_create_model_invocation_job bc req jr)
                 (List.filter is_create_job evs)) by (apply filter_In; auto).
  rewrite Hno in Hf. destruct Hf.
Qed.

Lemma create_run_stdout_extends st st' r :
  create_run st st' r -> exists out, stdout st' = stdout st ++ out.
Proof.
  intros [? ? ? ? ? ? Ho | ? ? ? ? ? ? ? ? ? ? Ho | ? ? ? ? ? ? ? ? (out & Ho & _)].
  - exists []. now rewrite app_nil_r.
  - exists []. now rewrite app_nil_r.
  - eauto.
Qed.

(** The run of [submit] from a state reached from [st]. *)
Lemma submit_after st st2 st' (r : result string) :
  (exists evs, calls st2 = calls st ++ evs) ->
  (exists out, stdout st2 = stdout st ++ out) ->
  submit st2 = (st', r) ->
  exists jr,
    new_calls st st' =
      new_calls st st2 ++
      [Ev_create_model_invocation_job (bedrock_client (self st2))
         (job_request_of (self st2)) jr] /\
    job_outcome jr r /\
    files st' = files st2 /\
    last (new_stdout st st') =
      Some (match r with Ok arn => msg_job arn | Raise _ => msg_starting end).
Proof.
  intros (evs & Hc) (out & Ho). rewrite submit_run. cbn zeta.
  destruct (create_model_invocation_job _ _ (world st2)) as [w' jr].
  intros Hrun. exists jr.
  assert (Hst : calls st' =
                calls st2 ++ [Ev_create_model_invocation_job (bedrock_client (self st2))
                                (job_request_of (self st2)) jr] /\
                files st' = files st2 /\ job_outcome jr r /\
                stdout st' = stdout st2 ++ msg_starting ::
                  match r with Ok arn => [msg_job arn] | Raise _ => [] end).
  { destruct jr as [resp | e]; cbn [job_outcome].
    - destruct (json.assoc "jobArn" resp); injection Hrun as <- <-;
        cbn [calls files stdout]; rewrite <- ?app_assoc; auto.
    - injection Hrun as <- <-. cbn [calls files stdout]. auto. }
  destruct Hst as (Hc' & Hf & Hj & Ho').
  split; [| split; [exact Hj | split; [exact Hf |]]].
  - rewrite (new_calls_app _ _ _ Hc). apply new_calls_app.
    now rewrite Hc', Hc, <- app_assoc.
  - unfold new_stdout. rewrite Ho', Ho, <- app_assoc, drop_app_length.
    destruct r as [arn | e].
    + rewrite last_app. reflexivity.
    + apply last_snoc.
Qed.

(** X9. When the response of the job creation has no field [jobArn],
    [start_batch_inference_job] raises [KeyError('jobArn')]: the job has
    been created (its creation is the last call of the run) but no handle
    is returned, and the line announcing the handle is not printed, the
    last line printed being the one that announces the start. *)
Theorem missing_jobArn_raises_after_creation st st' (r : result string)
    (bc : client) (req : job_request) (resp : response) :
  start_batch_inference_job st = (st', r) ->
  In (Ev_create_model_invocation_job bc req (Ok resp)) (new_calls st st') ->
  json.assoc "jobArn" resp = None ->
  r = Raise (KeyError "jobArn") /\
  last (new_calls st st') = Some (Ev_create_model_invocation_job bc req (Ok resp)) /\
  last (new_stdout st st') = Some msg_starting.
Proof.
  intros Hrun Hin Hnone. rewrite start_unfold in Hrun. cbn zeta in Hrun.
  destruct (list_obj_s3 _ _ _ (world st)) as [w1 [[| k ks] | e]] eqn:Hl.
  - destruct (create_input_jsonl (after_check st w1)) as [st1 [[] | e]] eqn:Hc1;
      apply create_input_jsonl_run in Hc1.
    + destruct (submit_after st st1 st' r (after_check_extends _ _ _ _ Hc1))
        as (jr & Hcalls & Hj & _ & Hout); [| exact Hrun |].
      { destruct (create_run_stdout_extends _ _ _ Hc1) as (out & Ho).
        cbn [after_check stdout] in Ho. rewrite <- app_assoc in Ho. eauto. }
      rewrite Hcalls in *. apply in_app_iff in Hin.
      destruct Hin as [Hin | [Hin | []]].
      { exfalso. rewrite (new_calls_after_check _ _ _ _ Hc1) in Hin.
        destruct Hin as [[=] | Hin].
        exact (create_run_no_job_call _ _ _ _ _ _ Hc1 Hin). }
      rewrite Hin. injection Hin as _ _ ->.
      cbn [job_outcome] in Hj. rewrite Hnone in Hj. subst r.
      split; [reflexivity |]. split; [apply last_snoc | exact Hout].
    + exfalso. injection Hrun as <- _.
      rewrite (new_calls_after_check _ _ _ _ Hc1) in Hin.
      destruct Hin as [[=] | Hin].
      exact (create_run_no_job_call _ _ _ _ _ _ Hc1 Hin).
  - match type of Hrun with submit ?s = _ =>
      destruct (submit_after st s st' r) as (jr & Hcalls & Hj & _ & Hout);
        [cbn [calls]; eauto | cbn [stdout]; eauto | exact Hrun |]
    end.
    rewrite Hcalls in *. unfold new_calls at 1 in Hin. cbn [calls] in Hin.
    rewrite drop_app_length in Hin.
    destruct Hin as [[=] | [Hin | []]].
    rewrite Hin. injection Hin as _ _ ->.
    cbn [job_outcome] in Hj. rewrite Hnone in Hj. subst r.
    split; [reflexivity |]. split; [apply last_snoc | exact Hout].
  - exfalso. injection Hrun as <- _. unfold new_calls in Hin. cbn [calls] in Hin.
    rewrite drop_app_length in Hin. destruct Hin as [[=] | []].
Qed.

(** X12. When [start_batch_inference_job] returns a handle, the last
    line it printed announces that same handle: the two lookups of
    [jobArn] in the response agree. *)
Theorem returned_handle_is_announced st st' (arn : string) :
  start_batch_inference_job st = (st', Ok arn) ->
  last (new_stdout st st') = Some (msg_job arn).
Proof.
  intros Hrun. rewrite start_unfold in Hrun. cbn zeta in Hrun.
  destruct (list_obj_s3 _ _ _ (world st)) as [w1 [[| k ks] | e]] eqn:Hl;
    [| | discriminate].
  - destruct (create_input_jsonl (after_check st w1)) as [st1 [[] | e]] eqn:Hc1;
      [| discriminate].
    apply create_input_jsonl_run in Hc1.
    destruct (submit_after st st1 st' (Ok arn) (after_check_extends _ _ _ _ Hc1))
      as (jr & _ & _ & _ & Hout); [| exact Hrun | exact Hout].
    destruct (create_run_stdout_extends _ _ _ Hc1) as (out & Ho).
    cbn [after_check stdout] in Ho. rewrite <- app_assoc in Ho. eauto.
  - match type of Hrun with submit ?s = _ =>
      destruct (submit_after st s st' (Ok arn)) as (jr & _ & _ & _ & Hout);
        [cbn [calls]; eauto | cbn [stdout]; eauto | exact Hrun | exact Hout]
    end.
Qed.

(** X13. [start_batch_inference_job] touches the local files and uploads
    only when the check returned the empty list: when the check raised or
    found something, the files of the working directory are unchanged and
    [put_object] is not called. *)
Theorem no_build_without_empty_check st st' (r : result string) (w1 : W)
    (lr : result (list string)) :
  start_batch_inference_job st = (st', r) ->
  list_obj_s3 (s3_client (self st)) (bucket_name (self st)) "input.jsonl"
    (world st) = (w1, lr) ->
  lr <> Ok [] ->
  files st' = files st /\ call_count is_put_object (new_calls st st') = 0.
Proof.
  intros Hrun Hl Hne. rewrite start_unfold in Hrun. cbn zeta in Hrun.
  rewrite Hl in Hrun. destruct lr as [[| k ks] | e]; [congruence | |].
  - match type of Hrun with submit ?s = _ =>
      destruct (submit_after st s st' r) as (jr & Hcalls & _ & Hf & _);
        [cbn [calls]; eauto | cbn [stdout]; eauto | exact Hrun |]
    end.
    split; [exact Hf |]. rewrite Hcalls.
    unfold new_calls at 1. cbn [calls]. rewrite drop_app_length. reflexivity.
  - injection Hrun as <- _. split; [reflexivity |].
    unfold new_calls. cbn [calls]. rewrite drop_app_length. reflexivity.
Qed.

(** X10. A request file found in the bucket is used whatever the source
    folder and the prompt are: two objects built by the constructor that
    differ only in [folder_name] and [creation_prompt], started in the same
    world where the check finds [input.jsonl], make the same calls, leave
    the same world and return the same result. *)
Theorem reuse_ignores_folder_and_prompt (bc c : client)
    (b d1 d2 o m p1 p2 ra j : string) st1 st2 (w1 : W) (k : string)
    (ks : list string) :
  self st1 = init bc c b d1 o m p1 ra j ->
  self st2 = init bc c b d2 o m p2 ra j ->
  world st1 = world st2 ->
  list_obj_s3 c b "input.jsonl" (world st1) = (w1, Ok (k :: ks)) ->
  snd (start_batch_inference_job st1) = snd (start_batch_inference_job st2) /\
  new_calls st1 (fst (start_batch_inference_job st1)) =
    new_calls st2 (fst (start_batch_inference_job st2)) /\
  world (fst (start_batch_inference_job st1)) =
    world (fst (start_batch_inference_job st2)).
Proof.
  intros Hs1 Hs2 Hw Hl.
  rewrite !start_unfold. cbn zeta. rewrite Hs1, Hs2. unfold init.
  cbn [s3_client bucket_name]. rewrite <- Hw, Hl.
  rewrite !submit_run. cbn [self world files stdout calls].
  unfold job_request_of.
  cbn [bedrock_client bucket_name output_folder job_name model_id role_arn].
  destruct (create_model_invocation_job bc _ w1) as [w2 [resp | e]].
  - destruct (json.assoc "jobArn" resp); cbn [fst snd world];
      unfold new_calls; cbn [calls]; rewrite <- !app_assoc, !drop_app_length; auto.
  - cbn [fst snd world]. unfold new_calls. cbn [calls].
    rewrite <- !app_assoc, !drop_app_length. auto.
Qed.

(** X11. The job reads what was uploaded: in a run of
    [start_batch_inference_job] that uploads and creates a job, the input
    location given to the job is [s3://] followed by the bucket and the key
    of the upload, and the local file of that name holds the body that was
    uploaded. *)
Theorem job_input_is_the_upload st st' (r : result string) (c bc : client)
    (b k : string) (body : bytes) (pr : result unit) (req : job_request)
    (jr : result response) :
  start_batch_inference_job st = (st', r) ->
  In (Ev_put_object c b k body pr) (new_calls st st') ->
  In (Ev_create_model_invocation_job bc req jr) (new_calls st st') ->
  at_path ["s3InputDataConfig"; "s3Uri"] (inputDataConfig req) =
    Some (JStr ("s3://" +:+ b +:+ "/" +:+ k)) /\
  files st' !! k = Some body.
Proof.
  intros Hrun Hput Hjob. rewrite start_unfold in Hrun. cbn zeta in Hrun.
  destruct (list_obj_s3 _ _ _ (world st)) as [w1 [[| k0 ks] | e]] eqn:Hl.
  - destruct (create_input_jsonl (after_check st w1)) as [st1 [[] | e]] eqn:Hc1.
    + pose proof (keeps_self_create_input_jsonl (after_check st w1)) as Hself.
      rewrite Hc1 in Hself. cbn [fst after_check self] in Hself.
      apply create_input_jsonl_run in Hc1.
      destruct (submit_after st st1 st' r (after_check_extends _ _ _ _ Hc1))
        as (jr' & Hcalls & _ & Hf & _); [| exact Hrun |].
      { destruct (create_run_stdout_extends _ _ _ Hc1) as (out & Ho).
        cbn [after_check stdout] in Ho. rewrite <- app_assoc in Ho. eauto. }
      rewrite Hcalls, (new_calls_after_check _ _ _ _ Hc1) in Hput, Hjob.
      apply in_app_iff in Hput. destruct Hput as [Hput | [[=] | []]].
      destruct Hput as [[=] | Hput].
      destruct (create_run_put _ _ _ _ _ _ _ _ Hc1 Hput)
        as (_ & -> & -> & Hbody & _).
      apply in_app_iff in Hjob. destruct Hjob as [Hjob | [Hjob | []]].
      { exfalso. destruct Hjob as [[=] | Hjob].
        exact (create_run_no_job_call _ _ _ _ _ _ Hc1 Hjob). }
      injection Hjob as _ <- _. rewrite Hself, Hf.
      split; [reflexivity | exact Hbody].
    + exfalso. injection Hrun as <- _. apply create_input_jsonl_run in Hc1.
      rewrite (new_calls_after_check _ _ _ _ Hc1) in Hjob.
      destruct Hjob as [[=] | Hjob].
      exact (create_run_no_job_call _ _ _ _ _ _ Hc1 Hjob).
  - exfalso.
    match type of Hrun with submit ?s = _ =>
      destruct (submit_after st s st' r) as (jr' & Hcalls & _);
        [cbn [calls]; eauto | cbn [stdout]; eauto | exact Hrun |]
    end.
    rewrite Hcalls in Hput. unfold new_calls at 1 in Hput. cbn [calls] in Hput.
    rewrite drop_app_length in Hput. destruct Hput as [[=] | [[=] | []]].
  - exfalso. injection Hrun as <- _. unfold new_calls in Hput. cbn [calls] in Hput.
    rewrite drop_app_length in Hput. destruct Hput as [[=] | []].
Qed.

Lemma uses_configuration_got (o : BatchInference client) (ks : list string)
    (bodies : list bytes) :
  Forall (uses_configuration o) (zip_with (got (s3_client o) (bucket_name o)) ks bodies).
Proof.
  revert bodies. induction ks as [| k ks IH]; intros [| body bodies]; cbn;
    constructor; cbn; auto.
Qed.

Lemma create_run_uses_configuration st st' r :
  create_run st st' r -> Forall (uses_configuration (self st)) (new_calls st st').
Proof.
  intros [w e0 Hl _ Hc _ _ | w ks bodies k0 e0 Hl Hk _ Hc _ _
          | w ks bodies pr0 Hl Hlen Hf Hc _];
    rewrite (new_calls_app _ _ _ Hc).
  - repeat constructor.
  - constructor; [split; reflexivity |]. apply Forall_app. split.
    + apply uses_configuration_got.
    + repeat constructor.
  - constructor; [split; reflexivity |]. apply Forall_app. split.
    + apply uses_configuration_got.
    + repeat constructor.
Qed.

(** X14. Every call the two methods make goes to the configured
    collaborators: listings, reads and uploads use [s3_client] and
    [bucket_name], uploads the key [input.jsonl], and a job is created
    through [bedrock_client] with the arguments built from the
    configuration.  No other bucket or client is ever touched. *)
Theorem calls_use_the_configuration st :
  Forall (uses_configuration (self st))
    (new_calls st (fst (create_input_jsonl st))) /\
  Forall (uses_configuration (self st))
    (new_calls st (fst (start_batch_inference_job st))).
Proof.
  split.
  - apply (create_run_uses_configuration st _ (snd (create_input_jsonl st))).
    apply create_input_jsonl_run, surjective_pairing.
  - destruct (start_batch_inference_job st) as [st' r] eqn:Hrun. cbn [fst].
    rewrite start_unfold in Hrun. cbn zeta in Hrun.
    destruct (list_obj_s3 _ _ _ (world st)) as [w1 [[| k ks] | e]] eqn:Hl.
    + destruct (create_input_jsonl (after_check st w1)) as [st1 [[] | e]] eqn:Hc1.
      * pose proof (keeps_self_create_input_jsonl (after_check st w1)) as Hself.
        rewrite Hc1 in Hself. cbn [fst after_check self] in Hself.
        apply create_input_jsonl_run in Hc1.
        destruct (submit_after st st1 st' r (after_check_extends _ _ _ _ Hc1))
          as (jr & Hcalls & _); [| exact Hrun |].
        { destruct (create_run_stdout_extends _ _ _ Hc1) as (out & Ho).
          cbn [after_check stdout] in Ho. rewrite <- app_assoc in Ho. eauto. }
        rewrite Hcalls, (new_calls_after_check _ _ _ _ Hc1), Hself.
        apply Forall_app. split; [| repeat constructor].
        constructor; [split; reflexivity |].
        exact (create_run_uses_configuration _ _ _ Hc1).
      * injection Hrun as <- _. apply create_input_jsonl_run in Hc1.
        rewrite (new_calls_after_check _ _ _ _ Hc1).
        constructor; [split; reflexivity |].
        exact (create_run_uses_configuration _ _ _ Hc1).
    + match type of Hrun with submit ?s = _ =>
        destruct (submit_after st s st' r) as (jr & Hcalls & _);
          [cbn [calls]; eauto | cbn [stdout]; eauto | exact Hrun |]
      end.
      rewrite Hcalls. unfold new_calls at 1. cbn [calls self].
      rewrite drop_app_length. repeat constructor.
    + injection Hrun as <- _. unfold new_calls. cbn [calls].
      rewrite drop_app_length. repeat constructor.
Qed.

End Coverage.

(** ** The identifier and the data of a record *)

(** X7. The identifier of a record is the last component of the key of
    its image: it never holds a slash; for a key [d/n] with no slash in [n]
    it is [n] (the empty string when the key ends with a slash); a key
    without a slash is its own identifier. *)
Theorem record_id_is_last_component :
  (forall p k data : string,
     exists rid,
       record_id (json_obj_of p k data) = Some rid /\
       string_forall no_slash rid = true) /\
  (forall p d n data : string,
     string_forall no_slash n = true ->
     record_id (json_obj_of p (d +:+ String "/" n) data) = Some n) /\
  (forall p k data : string,
     string_forall no_slash k = true ->
     record_id (json_obj_of p k data) = Some k).
Proof.
  split; [| split].
  - intros p k data. exists (posixpath.basename k).
    split; [apply record_id_json_obj_of | apply posixpath_facts.basename_no_slash].
  - intros p d n data Hn.
    now rewrite record_id_json_obj_of, posixpath_facts.basename_join.
  - intros p k data Hk.
    now rewrite record_id_json_obj_of, posixpath_facts.basename_plain.
Qed.

(** X8. The data field of the record of an image of [n] octets has
    [4 * ceil(n / 3)] characters, and it determines the image: two records
    with the same data field were built from the same octets. *)
Theorem data_field_size_and_injectivity :
  (forall (p k : string) (body : bytes),
     exists data,
       record_data (json_obj_of p k (base64.b64encode body)) = Some data /\
       String.length data = 4 * ((length body + 2) / 3)) /\
  (forall (p k p' k' : string) (a b : bytes),
     record_data (json_obj_of p k (base64.b64encode a)) =
     record_data (json_obj_of p' k' (base64.b64encode b)) ->
     a = b).
Proof.
  split.
  - intros p k body. eexists. split; [apply record_data_json_obj_of |].
    apply b64encode_length.
  - intros p k p' k' a b E. rewrite !record_data_json_obj_of in E.
    injection E as E. now apply b64encode_inj.
Qed.

(** ** Instances of the further properties *)

Lemma upload_is_the_local_file_witness :
  let st := Mock.start Mock.two_images in
  let st' := fst (create_input_jsonl st) in
  files st' !! "input.jsonl" =
    Some (request_file "Describe the image." ["images/a.jpg"; "images/b.jpg"]
            [[x4d; x61; x6e]; [x4d]]) /\
  call_count is_put_object (new_calls st st') = 1.
Proof.
  intros st st'.
  destruct (upload_is_the_local_file st st' (snd (create_input_jsonl st)) tt
              "bucket" "input.jsonl"
              (request_file "Describe the image." ["images/a.jpg"; "images/b.jpg"]
                 [[x4d; x61; x6e]; [x4d]])
              (Ok tt))
    as (_ & _ & _ & Hfile & Hcount & _).
  - apply surjective_pairing.
  - vm_compute. do 3 right. left. reflexivity.
  - split; [exact Hfile | exact Hcount].
Defined.

Lemma failed_fetch_leaves_no_trace_witness :
  let st := Scenario.with_local_files (Mock.failing_get Mock.boom) in
  let st' := fst (create_input_jsonl st) in
  files st' = files st /\ stdout st' = stdout st /\
  call_count is_put_object (new_calls st st') = 0.
Proof.
  intros st st'.
  apply (failed_fetch_leaves_no_trace st st' (snd (create_input_jsonl st))
           (Ev_get_object tt "bucket" "images/a.jpg" (Raise Mock.boom)) Mock.boom).
  - apply surjective_pairing.
  - vm_compute. right. left. reflexivity.
  - reflexivity.
Defined.


Lemma uploaded_body_is_ascii_lines_witness :
  let st := Mock.start Mock.two_images in
  let st' := fst (create_input_jsonl st) in
  let body := request_file "Describe the image." ["images/a.jpg"; "images/b.jpg"]
                [[x4d; x61; x6e]; [x4d]] in
  forallb jsonl_byte body = true /\
  count_LF body = call_count is_get_object (new_calls st st') /\
  (body = [] \/ last body = Some x0a).
Proof.
  intros st st' body.
  apply (uploaded_body_is_ascii_lines st st' (snd (create_input_jsonl st)) tt
           "bucket" "input.jsonl" body (Ok tt)).
  - apply surjective_pairing.
  - vm_compute. do 3 right. left. reflexivity.
Defined.

Lemma reads_follow_the_listing_witness :
  let st := Mock.start (Mock.failing_get Mock.boom) in
  let st' := fst (create_input_jsonl st) in
  read_keys (new_calls st st') = ["images/a.jpg"] /\
  call_count is_list_obj_s3 (new_calls st st') = 1 /\
  call_count is_create_job (new_calls st st') = 0.
Proof.
  intros st st'.
  destruct (reads_follow_the_listing st st' (snd (create_input_jsonl st)) tt
              "bucket" "images/" ["images/a.jpg"; "images/b.jpg"])
    as (Hkeys & _ & Hlist & Hjob).
  - apply surjective_pairing.
  - vm_compute. left. reflexivity.
  - split; [| split; [exact Hlist | exact Hjob]].
    rewrite Hkeys. vm_compute. reflexivity.
Defined.

Lemma lines_read_back_witness :
  let st := mk_state Scenario.odd_orchestrator Scenario.odd_names ∅ [] [] in
  let st' := fst (create_input_jsonl st) in
  exists text : string,
    files st' !! "input.jsonl" = Some (encode_text text) /\
    exists (line data : string) (body : bytes),
      lines text !! 0 = Some line /\
      json_read.read_line line =
        Some (posixpath.basename Scenario.odd_key,
              "Line one" +:+ String LF "line two", data) /\
      base64.b64decode data = Some body.
Proof.
  intros st st'.
  destruct (lines_read_back st st' (snd (create_input_jsonl st))
              Scenario.odd_names [Scenario.odd_key])
    as (text & Hfile & Hlines & _).
  - apply surjective_pairing.
  - reflexivity.
  - vm_compute. reflexivity.
  - exists text. split; [exact Hfile |].
    destruct (Hlines 0 Scenario.odd_key eq_refl)
      as (line & data & body & Hline & _ & Hread & Hdec).
    exists line, data, body. auto.
Defined.

Lemma record_id_is_last_component_witness :
  record_id (json_obj_of "p" ("images/x" +:+ String "/" "a.jpg") "TQ==") = Some "a.jpg" /\
  record_id (json_obj_of "p" ("images" +:+ String "/" EmptyString) "TQ==") =
    Some EmptyString /\
  record_id (json_obj_of "p" "a.jpg" "TQ==") = Some "a.jpg".
Proof.
  split; [| split].
  - apply (proj1 (proj2 record_id_is_last_component) "p" "images/x" "a.jpg" "TQ==").
    reflexivity.
  - apply (proj1 (proj2 record_id_is_last_component) "p" "images" EmptyString "TQ==").
    reflexivity.
  - apply (proj2 (proj2 record_id_is_last_component) "p" "a.jpg" "TQ==").
    reflexivity.
Defined.

Lemma data_field_size_and_injectivity_witness :
  [x4d; x61] = [x4d; x61] /\
  exists data,
    record_data (json_obj_of "p" "a.jpg" (base64.b64encode [x4d; x61])) = Some data /\
    String.length data = 4.
Proof.
  split.
  - apply (proj2 data_field_size_and_injectivity "p" "a.jpg" "q" "b.jpg"
             [x4d; x61] [x4d; x61]).
    reflexivity.
  - apply (proj1 data_field_size_and_injectivity "p" "a.jpg" [x4d; x61]).
Defined.

Lemma missing_jobArn_raises_after_creation_witness :
  let st := Mock.start Scenario.no_arn in
  let st' := fst (start_batch_inference_job st) in
  snd (start_batch_inference_job st) = Raise (KeyError "jobArn") /\
  last (new_calls st st') =
    Some (Ev_create_model_invocation_job tt (job_request_of Mock.orchestrator)
            (Ok [("status", "Submitted")])) /\
  last (new_stdout st st') = Some msg_starting.
Proof.
  intros st st'.
  apply (missing_jobArn_raises_after_creation st st'
           (snd (start_batch_inference_job st)) tt (job_request_of Mock.orchestrator)
           [("status", "Submitted")]).
  - apply surjective_pairing.
  - vm_compute. right. left. reflexivity.
  - reflexivity.
Defined.

Lemma reuse_ignores_folder_and_prompt_witness :
  let st1 := Mock.start Mock.with_request_file in
  let st2 := mk_state Scenario.other_orchestrator Mock.with_request_file ∅ [] [] in
  snd (start_batch_inference_job st1) = snd (start_batch_inference_job st2) /\
  new_calls st1 (fst (start_batch_inference_job st1)) =
    new_calls st2 (fst (start_batch_inference_job st2)) /\
  world (fst (start_batch_inference_job st1)) =
    world (fst (start_batch_inference_job st2)).
Proof.
  intros st1 st2.
  apply (reuse_ignores_folder_and_prompt tt tt "bucket" "images/" "scans/" "out/"
           "model-1" "Describe the image." "Transcribe the text." "arn:role/batch"
           "job-1" st1 st2 Mock.with_request_file "input.jsonl" []);
    reflexivity.
Defined.

Lemma job_input_is_the_upload_witness :
  let st := Mock.start Mock.two_images in
  let st' := fst (start_batch_inference_job st) in
  at_path ["s3InputDataConfig"; "s3Uri"]
    (inputDataConfig (job_request_of Mock.orchestrator)) =
    Some (JStr ("s3://" +:+ "bucket" +:+ "/" +:+ "input.jsonl")) /\
  files st' !! "input.jsonl" =
    Some (request_file "Describe the image." ["images/a.jpg"; "images/b.jpg"]
            [[x4d; x61; x6e]; [x4d]]).
Proof.
  intros st st'.
  apply (job_input_is_the_upload st st' (snd (start_batch_inference_job st)) tt tt
           "bucket" "input.jsonl"
           (request_file "Describe the image." ["images/a.jpg"; "images/b.jpg"]
              [[x4d; x61; x6e]; [x4d]])
           (Ok tt) (job_request_of Mock.orchestrator) Mock.arn_response).
  - apply surjective_pairing.
  - vm_compute. do 4 right. left. reflexivity.
  - vm_compute. do 5 right. left. reflexivity.
Defined.

Lemma returned_handle_is_announced_witness :
  let st := Mock.start Mock.two_images in
  last (new_stdout st (fst (start_batch_inference_job st))) =
    Some (msg_job "arn:job/1").
Proof.
  intros st.
  apply (returned_handle_is_announced st (fst (start_batch_inference_job st))
           "arn:job/1").
  vm_compute. reflexivity.
Defined.

Lemma no_build_without_empty_check_witness :
  let st := Scenario.with_local_files (Mock.failing_list Mock.boom) in
  let st' := fst (start_batch_inference_job st) in
  files st' = files st /\ call_count is_put_object (new_calls st st') = 0.
Proof.
  intros st st'.
  apply (no_build_without_empty_check st st' (snd (start_batch_inference_job st))
           (Mock.failing_list Mock.boom) (Raise Mock.boom)).
  - apply surjective_pairing.
  - reflexivity.
  - discriminate.
Defined.
